(** * rgb2aled: the WS2812B capture / relay / commit loop of [rgb2aled.ino]

    The firmware is one block of AVR assembly that never returns.  It is
    embedded here as a cycle-counting transition system:

    - a [machine] holds the registers r16..r22, the data space (the PWM
      compare registers OCRnx live there), bit DATA_OUT of PORTD, the
      cycle counter and a trace of observable events;
    - the data-in pin is a function [din : nat -> bool] giving the level
      of bit DATA_IN of PIND at every clock cycle; an instruction that
      tests the pin reads the level of the cycle in which it starts;
    - control is a [label] of the assembly text; [loop_step] executes the
      code from one label up to the next one, with the cycle costs the
      comments of the source count with (sbis/sbic 1, or 2 and 3 when
      they skip a one-word or a two-word instruction; sbi, cbi, rjmp,
      sts 2; jmp 3; brne 1 or 2; everything else 1). *)

From Stdlib Require Import ZArith List Bool Arith Lia.
Import ListNotations.

Local Open Scope Z_scope.

(** ** Machine state *)

Inductive reg : Set := r16 | r17 | r18 | r19 | r20 | r21 | r22.

Definition reg_eqb (a b : reg) : bool :=
  match a, b with
  | r16, r16 | r17, r17 | r18, r18 | r19, r19
  | r20, r20 | r21, r21 | r22, r22 => true
  | _, _ => false
  end.

(** Observable events, newest first in the trace.  [EvSample r b]: one
    READ_BIT shifted the sampled level [b] into [r].  [EvOut l t]: the
    data-out pin takes level [l] at the end of cycle [t - 1].
    [EvCommit red1 green1 blue1 red2 green2 blue2]: update_now stored
    these duty values into OCR1A, OCR1B, OCR2A, OCR2B, OCR0B, OCR0A. *)
Inductive event : Set :=
| EvSample (r : reg) (b : bool)
| EvOut (level : bool) (t : nat)
| EvCommit (red1 green1 blue1 red2 green2 blue2 : Z).

Record machine : Type := Machine {
  regs  : reg -> Z;       (* r16..r22, bytes *)
  mem   : Z -> Z;         (* data space, by address *)
  dout  : bool;           (* PORTD bit DATA_OUT *)
  clk   : nat;            (* elapsed clock cycles *)
  trace : list event
}.

(** Data-space addresses of the six compare registers. *)
Definition OCR0A : Z := 0x47.
Definition OCR0B : Z := 0x48.
Definition OCR1A : Z := 0x88.
Definition OCR1B : Z := 0x8A.
Definition OCR2A : Z := 0xB3.
Definition OCR2B : Z := 0xB4.

Definition tick (n : nat) (m : machine) : machine :=
  Machine (regs m) (mem m) (dout m) (clk m + n) (trace m).

Definition set_reg (r : reg) (v : Z) (m : machine) : machine :=
  Machine (fun x => if reg_eqb x r then v else regs m x)
          (mem m) (dout m) (clk m) (trace m).

Definition set_mem (a v : Z) (m : machine) : machine :=
  Machine (regs m) (fun x => if Z.eqb x a then v else mem m x)
          (dout m) (clk m) (trace m).

Definition set_out (l : bool) (m : machine) : machine :=
  Machine (regs m) (mem m) l (clk m) (trace m).

Definition emit (e : event) (m : machine) : machine :=
  Machine (regs m) (mem m) (dout m) (clk m) (e :: trace m).

(** ** Instructions *)

Definition nop : machine -> machine := tick 1.
Definition rjmp : machine -> machine := tick 2.
Definition jmp : machine -> machine := tick 3.

Definition ldi (r : reg) (k : Z) (m : machine) : machine :=
  tick 1 (set_reg r k m).

Definition lsl (r : reg) (m : machine) : machine :=
  tick 1 (set_reg r ((2 * regs m r) mod 256) m).

Definition ori (r : reg) (k : Z) (m : machine) : machine :=
  tick 1 (set_reg r (Z.lor (regs m r) k) m).

(** COM: Rd <- 0xFF - Rd. *)
Definition com (r : reg) (m : machine) : machine :=
  tick 1 (set_reg r (255 - regs m r) m).

Definition dec (r : reg) (m : machine) : machine :=
  tick 1 (set_reg r ((regs m r - 1) mod 256) m).

Definition sts (a : Z) (r : reg) (m : machine) : machine :=
  tick 2 (set_mem a (regs m r) m).

(** sbi / cbi on PORTD bit DATA_OUT: two cycles, the pin changes at the
    end of the second one. *)
Definition sbi (m : machine) : machine :=
  emit (EvOut true (clk m + 2)) (tick 2 (set_out true m)).

Definition cbi (m : machine) : machine :=
  emit (EvOut false (clk m + 2)) (tick 2 (set_out false m)).

(** ** Control points of the assembly text *)

Inductive label : Set :=
| at_start_frame
| at_wait_reset
| at_r_chk
| at_READ_BIT_1 (k : nat)     (* local label 1 of the k-th READ_BIT *)
| at_READ_BIT_2 (k : nat)     (* local label 2 of the k-th READ_BIT *)
| at_relay_entry (i : nat)    (* start of repetition i of the .rept 256 *)
| at_relay_bit
| at_update_now.

Definition state : Type := (label * machine)%type.

(** READ_BYTE reg: eight READ_BIT on the same register. *)
Definition READ_BYTE (r : reg) : list reg := [r; r; r; r; r; r; r; r].

(** The capture phase once the macros are expanded: the operand of each
    READ_BIT, in program order. *)
Definition capture_start (TWO_LEDS : bool) : list reg :=
  READ_BYTE r16 ++ READ_BYTE r17 ++ READ_BYTE r18 ++
  (if TWO_LEDS
   then READ_BYTE r19 ++ READ_BYTE r20 ++ READ_BYTE r21
   else []).

Section Firmware.

(** TWO_LEDS is the build-time macro; [din] is the data-in line. *)
Variable TWO_LEDS : bool.
Variable din : nat -> bool.

(** sbis / sbic on PIND bit DATA_IN; [w] is the size in words of the
    instruction after it, [next] what that instruction does. *)
Definition sbis (w : nat) (next : machine -> machine) (m : machine)
  : machine :=
  if din (clk m) then tick (1 + w) m else next (tick 1 m).

Definition sbic (w : nat) (next : machine -> machine) (m : machine)
  : machine :=
  if din (clk m) then next (tick 1 m) else tick (1 + w) m.

(** start_frame: only when TWO_LEDS is not defined, r19..r21 <- 255. *)
Definition start_frame (m : machine) : state :=
  (at_wait_reset,
   if TWO_LEDS then m else ldi r21 255 (ldi r20 255 (ldi r19 255 m))).

Definition wait_reset (m : machine) : state :=
  (at_r_chk, ldi r22 250 m).

(** r_chk: sbic / jmp wait_reset / dec r22 / brne r_chk. *)
Definition r_chk (m : machine) : state :=
  if din (clk m) then (at_wait_reset, jmp (tick 1 m))
  else
    let m1 := dec r22 (tick 3 m) in
    if Z.eqb (regs m1 r22) 0
    then (at_READ_BIT_1 0, tick 1 m1)
    else (at_r_chk, tick 2 m1).

(** READ_BIT, steps 2 and 3: delay to centre, shift, sample. *)
Definition READ_BIT_sample (r : reg) (m : machine) : machine :=
  let m1 := lsl r (nop (nop (nop (nop m)))) in
  emit (EvSample r (din (clk m1))) (sbic 1 (ori r 1) m1).

(** relay_entry, repetition [i] of the unrolled poll. *)
Definition relay_entry (i : nat) (m : machine) : state :=
  if din (clk m)
  then (at_relay_bit, jmp (sbi (tick 2 m)))
  else if Nat.ltb (S i) 256
       then (at_relay_entry (S i), rjmp (tick 1 m))
       else (at_update_now, jmp (rjmp (tick 1 m))).

(** READ_BIT, step 1: wait for rise. *)
Definition READ_BIT_1 (k : nat) (m : machine) : state :=
  match nth_error (capture_start TWO_LEDS) k with
  | Some r =>
      if din (clk m)
      then (at_READ_BIT_2 k, READ_BIT_sample r (tick 2 m))
      else (at_READ_BIT_1 k, rjmp (tick 1 m))
  | None => relay_entry 0 m
  end.

(** READ_BIT, step 4: wait for fall; then the next READ_BIT, or
    relay_entry after the last one. *)
Definition READ_BIT_2 (k : nat) (m : machine) : state :=
  if din (clk m)
  then (at_READ_BIT_2 k, rjmp (tick 1 m))
  else (if Nat.ltb (S k) (length (capture_start TWO_LEDS))
        then at_READ_BIT_1 (S k)
        else at_relay_entry 0,
        tick 2 m).

Definition relay_bit (m : machine) : state :=
  let m1 := sbis 1 cbi m in
  let m2 := sbic 1 rjmp m1 in
  (at_relay_entry 0, jmp (cbi (nop m2))).

Definition update_now (m : machine) : state :=
  let m1 := com r18 (com r17 (com r16 m)) in
  let m2 := if TWO_LEDS then com r21 (com r20 (com r19 m1)) else m1 in
  let m3 := sts OCR2A r18 (sts OCR1B r16 (sts OCR1A r17 m2)) in
  let m4 := sts OCR0A r21 (sts OCR0B r19 (sts OCR2B r20 m3)) in
  (at_READ_BIT_1 0,
   emit (EvCommit (mem m4 OCR1A) (mem m4 OCR1B) (mem m4 OCR2A)
                  (mem m4 OCR2B) (mem m4 OCR0B) (mem m4 OCR0A))
        (jmp m4)).

(** One transition of the body of loop(). *)
Definition loop_step (s : state) : state :=
  let (pc, m) := s in
  match pc with
  | at_start_frame => start_frame m
  | at_wait_reset => wait_reset m
  | at_r_chk => r_chk m
  | at_READ_BIT_1 k => READ_BIT_1 k m
  | at_READ_BIT_2 k => READ_BIT_2 k m
  | at_relay_entry i => relay_entry i m
  | at_relay_bit => relay_bit m
  | at_update_now => update_now m
  end.

Fixpoint run (n : nat) (s : state) : state :=
  match n with
  | O => s
  | S n' => run n' (loop_step s)
  end.

End Firmware.

(** setup(): the compare registers are set to 255 (off); PORTD is never
    written, so data-out keeps its reset level, low.  The registers hold
    whatever they held at power-on. *)
Definition setup (power_on : reg -> Z) : machine :=
  Machine power_on
          (fun a => if (Z.eqb a OCR0A || Z.eqb a OCR0B || Z.eqb a OCR1A ||
                        Z.eqb a OCR1B || Z.eqb a OCR2A || Z.eqb a OCR2B)%bool
                    then 255 else 0)
          false 0%nat [].

Definition boot (power_on : reg -> Z) : state :=
  (at_start_frame, setup power_on).

(** ** Reading the trace *)

(** Number of commits so far. *)
Fixpoint commits (tr : list event) : nat :=
  match tr with
  | [] => O
  | EvCommit _ _ _ _ _ _ :: tr' => S (commits tr')
  | _ :: tr' => commits tr'
  end.

(** The samples of the current frame, that is since the last commit,
    oldest first: the register shifted and the level sampled. *)
Fixpoint frame_samples (tr : list event) : list (reg * bool) :=
  match tr with
  | [] => []
  | EvCommit _ _ _ _ _ _ :: _ => []
  | EvSample r b :: tr' => frame_samples tr' ++ [(r, b)]
  | EvOut _ _ :: tr' => frame_samples tr'
  end.

(** The bits shifted into register [r], in arrival order. *)
Definition bits_into (r : reg) (fs : list (reg * bool)) : list bool :=
  map snd (filter (fun p => reg_eqb (fst p) r) fs).

(** What one READ_BIT does to its register: lsl, then ori 1 when the
    sampled level is high. *)
Definition shift_in (v : Z) (b : bool) : Z :=
  if b then Z.lor ((2 * v) mod 256) 1 else (2 * v) mod 256.

Definition shift_all (v : Z) (bs : list bool) : Z := fold_left shift_in bs v.

(** Most-significant-bit-first value of a bit sequence. *)
Definition byte_of_bits (bs : list bool) : Z :=
  fold_left (fun acc b => 2 * acc + Z.b2z b) bs 0.

(** The log of commits, newest first: for each one the samples of the
    frame it closes and the six duty values it stored. *)
Fixpoint commit_log (tr : list event)
  : list (list (reg * bool) * (Z * Z * Z * Z * Z * Z)) :=
  match tr with
  | [] => []
  | EvCommit a b c d e f :: tr' =>
      (frame_samples tr', (a, b, c, d, e, f)) :: commit_log tr'
  | _ :: tr' => commit_log tr'
  end.

(** The channel values a frame captured, wire order: G1 R1 B1 (G2 R2 B2). *)
Definition captured (TWO_LEDS : bool) (fs : list (reg * bool)) : list Z :=
  map (fun r => byte_of_bits (bits_into r fs))
      ([r16; r17; r18] ++ if TWO_LEDS then [r19; r20; r21] else []).

(** Times at which the data-out pin was written with level [l]. *)
Fixpoint out_times (l : bool) (tr : list event) : list nat :=
  match tr with
  | [] => []
  | EvOut l' t :: tr' =>
      if Bool.eqb l l' then t :: out_times l tr' else out_times l tr'
  | _ :: tr' => out_times l tr'
  end.

(** ** The wire, at 16 MHz

    A bit lasts 20 cycles (1.25 us); the line is high for the first 6
    cycles of a 0 and the first 13 cycles of a 1. *)

Definition T_bit : nat := 20.
Definition T_high (b : bool) : nat := if b then 13 else 6.

Definition low (din : nat -> bool) (a b : nat) : Prop :=
  forall t, (a <= t < b)%nat -> din t = false.

Definition pulse (din : nat -> bool) (s : nat) (b : bool) : Prop :=
  forall t, (s <= t < s + T_bit)%nat -> din t = Nat.ltb (t - s) (T_high b).

Fixpoint pulses (din : nat -> bool) (s : nat) (bs : list bool) : Prop :=
  match bs with
  | [] => True
  | b :: bs' => pulse din s b /\ pulses din (s + T_bit) bs'
  end.

(** A frame of bits starting at cycle [s], idle before and after. *)
Definition wave (s : nat) (bits : list bool) (t : nat) : bool :=
  if Nat.ltb t s then false
  else match nth_error bits ((t - s) / T_bit) with
       | Some b => Nat.ltb ((t - s) mod T_bit) (T_high b)
       | None => false
       end.

(** Two frames on one line. *)
Definition wave2 (s1 : nat) (bits1 : list bool) (s2 : nat) (bits2 : list bool)
                 (t : nat) : bool :=
  wave s1 bits1 t || wave s2 bits2 t.

(** The eight bits of a byte, most significant first. *)
Definition bits_of_byte (v : Z) : list bool :=
  map (fun i => Z.testbit v i) [7; 6; 5; 4; 3; 2; 1; 0].

(** Scenario A: one pixel, green 0x00, red 0xFF, blue 0x80, then 40
    bits to relay; the frame starts at cycle 1600, after the power-on
    synchronisation. *)
Definition frame_A : list bool :=
  bits_of_byte 0x00 ++ bits_of_byte 0xFF ++ bits_of_byte 0x80.

Definition relayed_A : list bool := repeat true 20 ++ repeat false 20.

Definition line_A : nat -> bool := wave 1600 (frame_A ++ relayed_A).

(** A line for two pixels: a full frame of 48 bits at cycle 1600, a
    short frame of 24 bits (scenario A's) at cycle 3600, and a second
    short frame of 24 ones at cycle 4950. *)
Definition frame_48 : list bool :=
  bits_of_byte 1 ++ bits_of_byte 2 ++ bits_of_byte 3 ++
  bits_of_byte 0x10 ++ bits_of_byte 0x20 ++ bits_of_byte 0x30.

Definition line_B (t : nat) : bool :=
  wave 1600 frame_48 t || wave2 3600 frame_A 4950 (repeat true 24) t.

(** Scenario C: the frame of scenario A sent twice, at cycles 1600 and
    3600. *)
Definition line_C : nat -> bool := wave2 1600 frame_A 3600 frame_A.

(** A machine with cleared registers and data space, at cycle [t]. *)
Definition blank (t : nat) : machine :=
  Machine (fun _ => 0) (fun _ => 0) false t [].

(** Decidable forms of [low] and [pulses], for concrete lines. *)
Definition lowb (din : nat -> bool) (a b : nat) : bool :=
  forallb (fun t => negb (din t)) (seq a (b - a)).

Definition pulseb (din : nat -> bool) (s : nat) (b : bool) : bool :=
  forallb (fun t => Bool.eqb (din t) (Nat.ltb (t - s) (T_high b)))
          (seq s T_bit).

Fixpoint pulsesb (din : nat -> bool) (s : nat) (bs : list bool) : bool :=
  match bs with
  | [] => true
  | b :: bs' => pulseb din s b && pulsesb din (s + T_bit) bs'
  end.

(** * Properties *)

Ltac norm_clk := rewrite <- ?Nat.add_assoc; cbn [Nat.add].

(** Symbolic execution.  Every instruction mentions its machine several
    times, so the code is evaluated by need on a machine given by its
    fields, never unfolded. *)
Ltac exec1 :=
  lazy beta iota zeta delta
    [loop_step start_frame wait_reset r_chk READ_BIT_1 READ_BIT_2
     READ_BIT_sample relay_entry relay_bit update_now sbis sbic
     jmp rjmp nop cbi sbi ldi lsl ori com dec sts
     emit set_out set_reg set_mem tick
     regs mem dout clk trace reg_eqb].

Ltac exec := exec1; cbn [fst snd]; exec1.

Ltac exec_update :=
  lazy beta iota zeta delta
    [update_now com sts tick set_reg set_mem emit jmp
     regs mem clk dout trace fst snd reg_eqb
     Z.eqb Pos.eqb OCR0A OCR0B OCR1A OCR1B OCR2A OCR2B].

(** Case analysis on every branch a transition can take. *)
Ltac step_cases TWO din :=
  exec;
  repeat match goal with
         | |- context [nth_error ?l ?k] => destruct (nth_error l k)
         | |- context [din ?t] => destruct (din t)
         | |- context [Nat.ltb ?a ?b] => destruct (Nat.ltb a b)
         | |- context [Z.eqb ?a ?b] => destruct (Z.eqb a b)
         | |- context [if TWO then _ else _] => destruct TWO
         end;
  exec.

Section Update.

Variable TWO_LEDS : bool.

Lemma update_now_pc (m : machine) :
  fst (update_now TWO_LEDS m) = at_READ_BIT_1 0.
Proof. reflexivity. Qed.

Lemma update_now_trace (m : machine) :
  trace (snd (update_now TWO_LEDS m)) =
  EvCommit (255 - regs m r17) (255 - regs m r16) (255 - regs m r18)
           (if TWO_LEDS then 255 - regs m r20 else regs m r20)
           (if TWO_LEDS then 255 - regs m r19 else regs m r19)
           (if TWO_LEDS then 255 - regs m r21 else regs m r21)
    :: trace m.
Proof.
  destruct m as [rg me o c tr]. destruct TWO_LEDS; exec_update; reflexivity.
Qed.

Lemma update_now_regs (m : machine) (r : reg) :
  regs (snd (update_now TWO_LEDS m)) r =
  match r with
  | r16 | r17 | r18 => 255 - regs m r
  | r19 | r20 | r21 => if TWO_LEDS then 255 - regs m r else regs m r
  | r22 => regs m r
  end.
Proof.
  destruct m as [rg me o c tr].
  destruct TWO_LEDS; destruct r; exec_update; reflexivity.
Qed.

Lemma update_now_clk (m : machine) :
  clk (snd (update_now TWO_LEDS m)) =
  (clk m + (if TWO_LEDS then 21 else 18))%nat.
Proof.
  destruct m as [rg me o c tr].
  destruct TWO_LEDS; exec_update; norm_clk; reflexivity.
Qed.

Lemma update_now_dout (m : machine) :
  dout (snd (update_now TWO_LEDS m)) = dout m.
Proof.
  destruct m as [rg me o c tr]. destruct TWO_LEDS; exec_update; reflexivity.
Qed.

(** The six stores, read back. *)
Lemma update_now_mem (m : machine) :
  let m' := snd (update_now TWO_LEDS m) in
  mem m' OCR1A = regs m' r17 /\ mem m' OCR1B = regs m' r16 /\
  mem m' OCR2A = regs m' r18 /\ mem m' OCR2B = regs m' r20 /\
  mem m' OCR0B = regs m' r19 /\ mem m' OCR0A = regs m' r21.
Proof.
  destruct m as [rg me o c tr].
  destruct TWO_LEDS; exec_update; repeat split; reflexivity.
Qed.

End Update.

Section Run.

Variable TWO_LEDS : bool.
Variable din : nat -> bool.

Lemma run_add (a b : nat) (s : state) :
  run TWO_LEDS din (a + b) s = run TWO_LEDS din b (run TWO_LEDS din a s).
Proof.
  revert s; induction a as [|a IH]; intro s; simpl; [reflexivity|apply IH].
Qed.

Lemma run_S_r (n : nat) (s : state) :
  run TWO_LEDS din (S n) s = loop_step TWO_LEDS din (run TWO_LEDS din n s).
Proof.
  replace (S n) with (n + 1)%nat by lia. rewrite run_add. reflexivity.
Qed.

(** Time never stands still or runs backwards. *)
Lemma clk_step (s : state) :
  (clk (snd s) <= clk (snd (loop_step TWO_LEDS din s)))%nat.
Proof.
  destruct s as [pc [rg me o c tr]]; destruct pc;
    step_cases TWO_LEDS din; lia.
Qed.

Lemma clk_run (n : nat) (s : state) :
  (clk (snd s) <= clk (snd (run TWO_LEDS din n s)))%nat.
Proof.
  revert s; induction n as [|n IH]; intro s; simpl; [lia|].
  specialize (IH (loop_step TWO_LEDS din s)).
  pose proof (clk_step s). lia.
Qed.

(** relay_bit spelled out: [b1], [b2] are the two samples of the line,
    taken at the cycles [clk m] and [t1]. *)
Lemma relay_bit_eq (m : machine) :
  let b1 := din (clk m) in
  let t1 := (clk m + (if b1 then 2 else 3))%nat in
  let b2 := din t1 in
  let t2 := (t1 + (if b2 then 3 else 2))%nat in
  relay_bit din m =
  (at_relay_entry 0,
   Machine (regs m) (mem m) false (t2 + 6)
     (EvOut false (t2 + 3)
      :: (if b1 then [] else [EvOut false (clk m + 3)]) ++ trace m)).
Proof.
  destruct m as [rg me o c tr]. exec.
  destruct (din c) eqn:E1.
  - destruct (din (c + (1 + 1))) eqn:E2;
      replace (c + 2)%nat with (c + (1 + 1))%nat by lia; rewrite E2;
      cbn [app]; norm_clk; reflexivity.
  - replace (c + 1 + 2)%nat with (c + 3)%nat by lia.
    destruct (din (c + 3)) eqn:E2; cbn [app]; norm_clk; reflexivity.
Qed.

(** relay_entry spelled out. *)
Lemma relay_entry_high (i : nat) (m : machine) :
  din (clk m) = true ->
  relay_entry din i m =
  (at_relay_bit,
   Machine (regs m) (mem m) true (clk m + 7)
           (EvOut true (clk m + 4) :: trace m)).
Proof.
  destruct m as [rg me o c tr]. exec. intro H. rewrite H.
  norm_clk. reflexivity.
Qed.

Lemma relay_entry_low (i : nat) (m : machine) :
  din (clk m) = false ->
  relay_entry din i m =
  if Nat.ltb (S i) 256
  then (at_relay_entry (S i), tick 3 m)
  else (at_update_now, tick 6 m).
Proof.
  destruct m as [rg me o c tr]. exec. intro H. rewrite H.
  destruct (Nat.ltb (S i) 256); norm_clk; reflexivity.
Qed.

End Run.

(** ** Invariants of every run from power-on *)

Section FromBoot.

Variable TWO_LEDS : bool.
Variable din : nat -> bool.

(** Only update_now writes the data space. *)
Lemma mem_step (s : state) :
  fst s <> at_update_now ->
  mem (snd (loop_step TWO_LEDS din s)) = mem (snd s).
Proof.
  destruct s as [pc [rg me o c tr]]; destruct pc; intro H;
    try (step_cases TWO_LEDS din; reflexivity).
  exfalso; apply H; reflexivity.
Qed.

(** Data-out is low at every control point but relay_bit. *)
Definition out_low (s : state) : Prop :=
  fst s <> at_relay_bit -> dout (snd s) = false.

Lemma out_low_step (s : state) :
  out_low s -> out_low (loop_step TWO_LEDS din s).
Proof.
  unfold out_low.
  destruct s as [pc [rg me o c tr]]; destruct pc;
    step_cases TWO_LEDS din; intros H Hn;
    try reflexivity;
    try (apply H; discriminate);
    try (exfalso; apply Hn; reflexivity).
Qed.

Lemma out_low_run (n : nat) (s : state) :
  out_low s -> out_low (run TWO_LEDS din n s).
Proof.
  revert s; induction n as [|n IH]; intros s H; simpl; [exact H|].
  apply IH, out_low_step, H.
Qed.

(** start_frame is left at once and never entered again. *)
Lemma start_frame_once (n : nat) (s : state) :
  fst (run TWO_LEDS din (S n) s) <> at_start_frame.
Proof.
  rewrite run_S_r.
  destruct (run TWO_LEDS din n s) as [pc [rg me o c tr]]; destruct pc;
    step_cases TWO_LEDS din; discriminate.
Qed.

End FromBoot.

Lemma capture_start_one_led (r : reg) :
  In r (capture_start false) -> r = r16 \/ r = r17 \/ r = r18.
Proof.
  cbn. intros H.
  repeat (destruct H as [H|H]; [subst; auto|]). contradiction.
Qed.

Section OneLed.

Variable din : nat -> bool.

Definition pixel2_event (e : event) : Prop :=
  match e with
  | EvSample r _ => r = r16 \/ r = r17 \/ r = r18
  | EvCommit _ _ _ red2 green2 blue2 =>
      red2 = 255 /\ green2 = 255 /\ blue2 = 255
  | EvOut _ _ => True
  end.

(** With one LED: r19..r21 hold 255 once start_frame has run, the
    second pixel's compare registers hold 255, no sample went to
    r19..r21 and every commit stored 255 for the second pixel. *)
Definition pixel2_off (s : state) : Prop :=
  (fst s <> at_start_frame ->
   regs (snd s) r19 = 255 /\ regs (snd s) r20 = 255 /\
   regs (snd s) r21 = 255) /\
  (mem (snd s) OCR2B = 255 /\ mem (snd s) OCR0B = 255 /\
   mem (snd s) OCR0A = 255) /\
  Forall pixel2_event (trace (snd s)).

Lemma pixel2_off_step (s : state) :
  pixel2_off s -> pixel2_off (loop_step false din s).
Proof.
  unfold pixel2_off. intros (Hr & Hm & Ht).
  destruct s as [pc m]. destruct pc.
  - (* start_frame *)
    destruct m as [rg me o c tr]. exec. cbn in *.
    repeat split; try reflexivity; tauto.
  - destruct m as [rg me o c tr]. exec. cbn in *.
    specialize (Hr ltac:(discriminate)). tauto.
  - destruct m as [rg me o c tr]. step_cases false din; cbn in *;
      specialize (Hr ltac:(discriminate)); tauto.
  - (* READ_BIT, label 1 *)
    specialize (Hr ltac:(discriminate)).
    cbn [loop_step]. unfold READ_BIT_1.
    destruct (nth_error (capture_start false) k) as [r|] eqn:E.
    + apply nth_error_In, capture_start_one_led in E.
      destruct m as [rg me o c tr].
      destruct E as [E|[E|E]]; subst r; step_cases false din; cbn in *;
        (split; [intros _; exact Hr | split; [exact Hm|]]);
        try exact Ht; constructor; cbn; auto.
    + destruct m as [rg me o c tr]. step_cases false din; cbn in *;
        (split; [intros _; exact Hr | split; [exact Hm|]]);
        try exact Ht; constructor; cbn; auto.
  - destruct m as [rg me o c tr]. step_cases false din; cbn in *;
      specialize (Hr ltac:(discriminate)); tauto.
  - destruct m as [rg me o c tr]. step_cases false din; cbn in *;
      specialize (Hr ltac:(discriminate));
      (split; [intros _; exact Hr | split; [exact Hm|]]);
      try exact Ht; constructor; cbn; auto.
  - destruct m as [rg me o c tr]. step_cases false din; cbn in *;
      specialize (Hr ltac:(discriminate));
      (split; [intros _; exact Hr | split; [exact Hm|]]);
      repeat (constructor; cbn; auto).
  - (* update_now *)
    specialize (Hr ltac:(discriminate)). cbn [fst snd] in Hr.
    cbn [loop_step].
    pose proof (update_now_mem false m) as Hmem. cbv zeta in Hmem.
    rewrite update_now_trace.
    rewrite !update_now_regs in *.
    destruct Hr as (H19 & H20 & H21).
    destruct Hmem as (_ & _ & _ & M1 & M2 & M3).
    rewrite M1, M2, M3, H19, H20, H21.
    repeat split; try reflexivity.
    constructor; [cbn; auto | exact Ht].
Qed.

Lemma pixel2_off_run (n : nat) (s : state) :
  pixel2_off s -> pixel2_off (run false din n s).
Proof.
  revert s; induction n as [|n IH]; intros s H; simpl; [exact H|].
  apply IH, pixel2_off_step, H.
Qed.

Lemma pixel2_off_boot (power_on : reg -> Z) : pixel2_off (boot power_on).
Proof.
  unfold pixel2_off, boot; cbn. split; [|split].
  - intro H; exfalso; apply H; reflexivity.
  - repeat split.
  - constructor.
Qed.

End OneLed.

(** ** Arithmetic of the shift register *)

Lemma lor_even_1 (q : Z) : 0 <= q -> Z.lor (2 * q) 1 = 2 * q + 1.
Proof.
  intro H. destruct q as [|p|p]; [reflexivity|reflexivity|lia].
Qed.

Lemma shift_in_eq (v : Z) (b : bool) :
  shift_in v b = (2 * v + Z.b2z b) mod 256.
Proof.
  unfold shift_in. destruct b; cbn [Z.b2z].
  - replace ((2 * v) mod 256) with (2 * (v mod 128))
      by (change 256 with (2 * 128); rewrite Z.mul_mod_distr_l; lia).
    rewrite lor_even_1 by (apply Z.mod_pos_bound; lia).
    apply Z.mod_unique with (q := v / 128).
    + pose proof (Z.mod_pos_bound v 128). lia.
    + pose proof (Z.div_mod v 128). lia.
  - f_equal. lia.
Qed.

Lemma shift_in_range (v : Z) (b : bool) : 0 <= shift_in v b < 256.
Proof. rewrite shift_in_eq. apply Z.mod_pos_bound. lia. Qed.

Lemma shift_all_snoc (v : Z) (bs : list bool) (b : bool) :
  shift_all v (bs ++ [b]) = shift_in (shift_all v bs) b.
Proof. unfold shift_all. rewrite fold_left_app. reflexivity. Qed.

(** Shifting agrees, modulo 256, with doubling and adding. *)
Lemma shift_all_mod (bs : list bool) (v a : Z) :
  v mod 256 = a mod 256 ->
  (shift_all v bs) mod 256 =
  (fold_left (fun acc b => 2 * acc + Z.b2z b) bs a) mod 256.
Proof.
  revert v a; induction bs as [|b bs IH]; intros v a H; [exact H|].
  cbn [shift_all fold_left]. apply IH.
  rewrite shift_in_eq, Z.mod_mod by lia.
  rewrite <- (Zplus_mod_idemp_l (2 * v)), <- (Zmult_mod_idemp_r v), H.
  rewrite Zmult_mod_idemp_r, Zplus_mod_idemp_l. reflexivity.
Qed.

Lemma shift_all_range (bs : list bool) (v : Z) :
  bs <> [] -> 0 <= shift_all v bs < 256.
Proof.
  intro H. destruct (exists_last H) as (bs' & b & ->).
  rewrite shift_all_snoc. apply shift_in_range.
Qed.

Lemma byte_of_bits_8 (b1 b2 b3 b4 b5 b6 b7 b8 : bool) :
  byte_of_bits [b1; b2; b3; b4; b5; b6; b7; b8] =
  Z.b2z b1 * 128 + Z.b2z b2 * 64 + Z.b2z b3 * 32 + Z.b2z b4 * 16 +
  Z.b2z b5 * 8 + Z.b2z b6 * 4 + Z.b2z b7 * 2 + Z.b2z b8.
Proof. unfold byte_of_bits. cbn [fold_left]. ring. Qed.

Lemma byte_of_bits_range (bs : list bool) :
  length bs = 8%nat -> 0 <= byte_of_bits bs < 256.
Proof.
  intro H.
  do 8 (destruct bs as [|? bs]; [discriminate|]).
  destruct bs; [|discriminate].
  rewrite byte_of_bits_8.
  repeat match goal with b : bool |- _ => destruct b end; cbn; lia.
Qed.

(** Eight shifts replace the whole register: whatever it held, it now
    holds the eight bits, most significant first. *)
Lemma shift_all_byte (v : Z) (bs : list bool) :
  length bs = 8%nat -> shift_all v bs = byte_of_bits bs.
Proof.
  intro H.
  assert (Hne : bs <> []) by (destruct bs; discriminate).
  pose proof (shift_all_range bs v Hne) as Hr.
  pose proof (byte_of_bits_range bs H) as Hb.
  rewrite <- (Z.mod_small _ 256 Hr), <- (Z.mod_small _ 256 Hb).
  rewrite (shift_all_mod bs v v eq_refl).
  unfold byte_of_bits.
  do 8 (destruct bs as [|? bs]; [discriminate|]).
  destruct bs; [|discriminate]. cbn [fold_left].
  match goal with
  | |- ?x mod 256 = ?y mod 256 => replace x with (y + v * 256) by ring
  end.
  apply Z.mod_add. lia.
Qed.

(** ** The capture phase *)

Lemma firstn_snoc_nth {A : Type} (l : list A) (k : nat) (x : A) :
  nth_error l k = Some x -> firstn (S k) l = firstn k l ++ [x].
Proof.
  revert k; induction l as [|a l IH]; intros [|k] H; try discriminate.
  - injection H as ->. reflexivity.
  - cbn [firstn app]. f_equal. apply IH. exact H.
Qed.

Lemma capture_length (TWO_LEDS : bool) :
  length (capture_start TWO_LEDS) = if TWO_LEDS then 48%nat else 24%nat.
Proof. destruct TWO_LEDS; reflexivity. Qed.

Lemma bits_into_snoc (r r' : reg) (b : bool) (fs : list (reg * bool)) :
  bits_into r (fs ++ [(r', b)]) =
  bits_into r fs ++ (if reg_eqb r' r then [b] else []).
Proof.
  unfold bits_into. rewrite filter_app, map_app. cbn.
  destruct (reg_eqb r' r); reflexivity.
Qed.

Section Capture.

Variable TWO_LEDS : bool.
Variable din : nat -> bool.

(** Where control is, against the number [n] of samples taken in the
    current frame. *)
Definition position (pc : label) (n : nat) : Prop :=
  match pc with
  | at_start_frame | at_wait_reset | at_r_chk => n = O
  | at_READ_BIT_1 k => n = k /\ (k < length (capture_start TWO_LEDS))%nat
  | at_READ_BIT_2 k => n = S k /\ (k < length (capture_start TWO_LEDS))%nat
  | at_relay_entry _ | at_relay_bit | at_update_now =>
      n = length (capture_start TWO_LEDS)
  end.

(** The samples of the current frame went to the operands of the
    READ_BITs executed so far, in program order. *)
Definition framing (s : state) : Prop :=
  let fs := frame_samples (trace (snd s)) in
  position (fst s) (length fs) /\
  map fst fs = firstn (length fs) (capture_start TWO_LEDS).

Lemma framing_step (s : state) :
  framing s -> framing (loop_step TWO_LEDS din s).
Proof.
  unfold framing. destruct s as [pc m]. cbn [fst snd].
  intros [Hp Hf]. pose proof (capture_length TWO_LEDS) as HL.
  destruct pc; cbn [position] in Hp.
  - destruct m as [rg me o c tr]. cbn [trace] in *.
    step_cases TWO_LEDS din; cbn [position]; auto.
  - destruct m as [rg me o c tr]. cbn [trace] in *.
    step_cases TWO_LEDS din; cbn [position]; auto.
  - destruct m as [rg me o c tr]. cbn [trace] in *.
    step_cases TWO_LEDS din; cbn [position]; rewrite ?Hp in *;
      cbn [length firstn] in *; auto; repeat split; auto;
      rewrite HL; destruct TWO_LEDS; lia.
  - (* READ_BIT, label 1 *)
    destruct Hp as [Hk Hlt].
    cbn [loop_step]. unfold READ_BIT_1.
    destruct (nth_error (capture_start TWO_LEDS) k) as [r|] eqn:E.
    2:{ apply nth_error_None in E. lia. }
    destruct m as [rg me o c tr]. cbn [trace] in *.
    step_cases TWO_LEDS din; cbn [frame_samples position]; auto;
      rewrite length_app, map_app, Hf, Hk; cbn [length map fst];
      replace (k + 1)%nat with (S k) by lia;
      rewrite (firstn_snoc_nth _ _ _ E); auto.
  - (* READ_BIT, label 2 *)
    destruct Hp as [Hk Hlt].
    destruct m as [rg me o c tr]. cbn [trace] in *.
    exec. destruct (din c); exec; cbn [position]; auto.
    destruct (Nat.ltb (S k) (length (capture_start TWO_LEDS))) eqn:El;
      exec; cbn [position].
    + apply Nat.ltb_lt in El. auto.
    + apply Nat.ltb_ge in El. split; [lia|exact Hf].
  - destruct m as [rg me o c tr]. cbn [trace] in *.
    step_cases TWO_LEDS din; cbn [position frame_samples]; auto.
  - destruct m as [rg me o c tr]. cbn [trace] in *.
    step_cases TWO_LEDS din; cbn [position frame_samples]; auto.
  - (* update_now *)
    cbn [loop_step]. rewrite update_now_trace, update_now_pc.
    cbn [frame_samples length position firstn map].
    repeat split; rewrite HL; destruct TWO_LEDS; lia.
Qed.

Lemma framing_run (n : nat) (s : state) :
  framing s -> framing (run TWO_LEDS din n s).
Proof.
  revert s; induction n as [|n IH]; intros s H; simpl; [exact H|].
  apply IH, framing_step, H.
Qed.

Lemma framing_boot (power_on : reg -> Z) : framing (boot power_on).
Proof. unfold framing, boot; cbn. auto. Qed.

End Capture.

Section Shifting.

Variable TWO_LEDS : bool.
Variable din : nat -> bool.

(** Each register holds what it held at [origin], with the bits of
    the current frame that went to it shifted in. *)
Definition shifted (origin : reg -> Z) (s : state) : Prop :=
  forall r, r <> r22 ->
    regs (snd s) r =
    shift_all (origin r) (bits_into r (frame_samples (trace (snd s)))).

Lemma shifted_step (origin : reg -> Z) (s : state) :
  fst s <> at_update_now ->
  (fst s = at_start_frame -> TWO_LEDS = true) ->
  shifted origin s -> shifted origin (loop_step TWO_LEDS din s).
Proof.
  intros Hu Hsf Hs r0 Hr0. specialize (Hs r0 Hr0).
  destruct s as [pc [rg me o c tr]]. cbn [fst snd regs trace] in *.
  destruct pc; try (exfalso; apply Hu; reflexivity).
  - rewrite (Hsf eq_refl). exec. exact Hs.
  - destruct r0; try (exfalso; apply Hr0; reflexivity); exec; exact Hs.
  - destruct r0; try (exfalso; apply Hr0; reflexivity);
      step_cases TWO_LEDS din; exact Hs.
  - cbn [loop_step]. unfold READ_BIT_1.
    destruct (nth_error (capture_start TWO_LEDS) k) as [r|].
    + destruct r; destruct r0; try (exfalso; apply Hr0; reflexivity);
        step_cases TWO_LEDS din; cbn [frame_samples];
        rewrite ?bits_into_snoc; cbn [reg_eqb]; rewrite ?app_nil_r;
        rewrite ?shift_all_snoc; try exact Hs;
        rewrite <- Hs; reflexivity.
    + step_cases TWO_LEDS din; cbn [frame_samples]; exact Hs.
  - step_cases TWO_LEDS din; exact Hs.
  - step_cases TWO_LEDS din; cbn [frame_samples]; exact Hs.
  - step_cases TWO_LEDS din; cbn [frame_samples]; exact Hs.
Qed.

(** At a commit the frame starts afresh. *)
Lemma shifted_update (m : machine) :
  shifted (regs (snd (update_now TWO_LEDS m))) (update_now TWO_LEDS m).
Proof.
  intros r _. rewrite update_now_trace. reflexivity.
Qed.

(** Whatever the registers held when the frame started, a register
    that has received eight bits holds their value. *)
Definition bytes_ok (s : state) : Prop :=
  forall r, r <> r22 ->
    length (bits_into r (frame_samples (trace (snd s)))) = 8%nat ->
    regs (snd s) r =
    byte_of_bits (bits_into r (frame_samples (trace (snd s)))).

Lemma shifted_bytes_ok (origin : reg -> Z) (s : state) :
  shifted origin s -> bytes_ok s.
Proof.
  intros Hs r Hr H8. rewrite (Hs r Hr). apply shift_all_byte, H8.
Qed.

Definition capturing (s : state) : Prop :=
  framing TWO_LEDS s /\ exists origin, shifted origin s.

Lemma capturing_step (s : state) :
  capturing s -> capturing (loop_step TWO_LEDS din s).
Proof.
  intros [Hf [origin Hs]]. split; [apply framing_step, Hf|].
  destruct s as [pc m]. destruct pc;
    try (exists origin; apply shifted_step;
         [discriminate | discriminate | exact Hs]).
  - (* start_frame: no sample yet *)
    exists (regs (snd (loop_step TWO_LEDS din (at_start_frame, m)))).
    intros r _. destruct Hf as [Hp _]. cbn [fst snd position] in Hp.
    apply length_zero_iff_nil in Hp.
    destruct m as [rg me o c tr]. cbn [trace] in Hp.
    step_cases TWO_LEDS din; rewrite Hp; reflexivity.
  - exists (regs (snd (update_now TWO_LEDS m))). apply shifted_update.
Qed.

Lemma capturing_run (n : nat) (s : state) :
  capturing s -> capturing (run TWO_LEDS din n s).
Proof.
  revert s; induction n as [|n IH]; intros s H; simpl; [exact H|].
  apply IH, capturing_step, H.
Qed.

Lemma capturing_boot (power_on : reg -> Z) : capturing (boot power_on).
Proof.
  split; [apply framing_boot|]. exists power_on. intros r _. reflexivity.
Qed.

End Shifting.

(** ** Following the line bit by bit *)

Lemma pulse_high (din : nat -> bool) (s : nat) (b : bool) (t : nat) :
  pulse din s b -> (s <= t)%nat -> (t < s + T_high b)%nat -> din t = true.
Proof.
  intros H H1 H2. rewrite (H t).
  - apply Nat.ltb_lt. lia.
  - unfold T_bit. destruct b; cbn [T_high] in H2; lia.
Qed.

Lemma pulse_low (din : nat -> bool) (s : nat) (b : bool) (t : nat) :
  pulse din s b -> (s + T_high b <= t)%nat -> (t < s + T_bit)%nat ->
  din t = false.
Proof.
  intros H H1 H2. rewrite (H t).
  - apply Nat.ltb_ge. lia.
  - lia.
Qed.

Lemma low_weaken (din : nat -> bool) (a b a' b' : nat) :
  low din a b -> (a <= a')%nat -> (b' <= b)%nat -> low din a' b'.
Proof. intros H H1 H2 t Ht. apply H. lia. Qed.

Lemma low_join (din : nat -> bool) (a b c : nat) :
  low din a b -> low din b c -> low din a c.
Proof.
  intros H1 H2 t Ht. destruct (Nat.lt_ge_cases t b); [apply H1|apply H2]; lia.
Qed.

Lemma pulse_tail_low (din : nat -> bool) (s : nat) (b : bool) :
  pulse din s b -> low din (s + T_high b) (s + T_bit).
Proof. intros H t Ht. apply (pulse_low din s b); [exact H|lia|lia]. Qed.

Section Bits.

Variable TWO_LEDS : bool.
Variable din : nat -> bool.

(** Where control goes after the READ_BIT number [k]. *)
Definition after_bit (k : nat) : label :=
  if Nat.ltb (S k) (length (capture_start TWO_LEDS))
  then at_READ_BIT_1 (S k)
  else at_relay_entry 0.

Lemma READ_BIT_1_low (k : nat) (r : reg) (m : machine) :
  nth_error (capture_start TWO_LEDS) k = Some r ->
  din (clk m) = false ->
  exists m', loop_step TWO_LEDS din (at_READ_BIT_1 k, m) = (at_READ_BIT_1 k, m')
             /\ clk m' = (clk m + 3)%nat /\ trace m' = trace m
             /\ regs m' = regs m /\ mem m' = mem m.
Proof.
  intros E H. cbn [loop_step]. unfold READ_BIT_1. rewrite E, H.
  eexists; split; [reflexivity|]. destruct m; exec.
  repeat split; try reflexivity; lia.
Qed.

Lemma READ_BIT_1_high (k : nat) (r : reg) (m : machine) :
  nth_error (capture_start TWO_LEDS) k = Some r ->
  din (clk m) = true ->
  exists m', loop_step TWO_LEDS din (at_READ_BIT_1 k, m) = (at_READ_BIT_2 k, m')
             /\ clk m' = (clk m + 9)%nat
             /\ trace m' = EvSample r (din (clk m + 7)) :: trace m.
Proof.
  intros E H. cbn [loop_step]. unfold READ_BIT_1. rewrite E, H.
  eexists; split; [reflexivity|]. destruct m as [rg me o c tr]; exec.
  replace (c + 2 + 1 + 1 + 1 + 1 + 1)%nat with (c + 7)%nat by lia.
  destruct (din (c + 7)); exec; split; try reflexivity; lia.
Qed.

Lemma READ_BIT_2_high (k : nat) (m : machine) :
  din (clk m) = true ->
  exists m', loop_step TWO_LEDS din (at_READ_BIT_2 k, m) = (at_READ_BIT_2 k, m')
             /\ clk m' = (clk m + 3)%nat /\ trace m' = trace m.
Proof.
  intros H. cbn [loop_step]. unfold READ_BIT_2. rewrite H.
  eexists; split; [reflexivity|]. destruct m; exec. split; [lia|reflexivity].
Qed.

Lemma READ_BIT_2_low (k : nat) (m : machine) :
  din (clk m) = false ->
  exists m', loop_step TWO_LEDS din (at_READ_BIT_2 k, m) = (after_bit k, m')
             /\ clk m' = (clk m + 2)%nat /\ trace m' = trace m.
Proof.
  intros H. cbn [loop_step]. unfold READ_BIT_2, after_bit. rewrite H.
  eexists; split; [reflexivity|]. destruct m; exec. split; reflexivity.
Qed.

(** Polling for the rising edge: the edge at [s] is seen at most two
    cycles late. *)
Lemma wait_rise (k : nat) (r : reg) (s d : nat) (m : machine) :
  nth_error (capture_start TWO_LEDS) k = Some r ->
  (clk m <= s + 2)%nat -> (s <= clk m + 3 * d)%nat ->
  low din (clk m) s ->
  exists n m', run TWO_LEDS din n (at_READ_BIT_1 k, m) = (at_READ_BIT_1 k, m')
               /\ (s <= clk m' <= s + 2)%nat /\ trace m' = trace m.
Proof.
  intros E. revert m. induction d as [|d IH]; intros m H1 H2 HL.
  - exists O, m. cbn. repeat split; lia.
  - destruct (Nat.le_gt_cases s (clk m)) as [Hge|Hlt].
    + exists O, m. cbn. repeat split; lia.
    + destruct (READ_BIT_1_low k r m E) as (m1 & Hs & Hc & Ht & _).
      { apply HL. lia. }
      destruct (IH m1) as (n & m' & Hr & Hc' & Ht').
      * lia.
      * lia.
      * eapply low_weaken; [exact HL|lia|lia].
      * exists (S n), m'. cbn [run]. rewrite Hs. repeat split.
        -- exact Hr.
        -- lia.
        -- lia.
        -- congruence.
Qed.

(** Polling for the falling edge at [f]. *)
Lemma wait_fall (k : nat) (f d : nat) (m : machine) :
  (clk m <= f + 2)%nat -> (f <= clk m + 3 * d)%nat ->
  (forall t, (clk m <= t < f)%nat -> din t = true) ->
  low din f (f + 3) ->
  exists n m', run TWO_LEDS din n (at_READ_BIT_2 k, m) = (after_bit k, m')
               /\ (f + 2 <= clk m' <= f + 4)%nat /\ trace m' = trace m.
Proof.
  revert m. induction d as [|d IH]; intros m H1 H2 HH HL.
  - destruct (READ_BIT_2_low k m) as (m1 & Hs & Hc & Ht).
    { apply HL. lia. }
    exists 1%nat, m1. cbn [run]. rewrite Hs. repeat split; try lia. exact Ht.
  - destruct (Nat.le_gt_cases f (clk m)) as [Hge|Hlt].
    + destruct (READ_BIT_2_low k m) as (m1 & Hs & Hc & Ht).
      { apply HL. lia. }
      exists 1%nat, m1. cbn [run]. rewrite Hs.
      repeat split; try lia. exact Ht.
    + destruct (READ_BIT_2_high k m) as (m1 & Hs & Hc & Ht).
      { apply HH. lia. }
      destruct (IH m1) as (n & m' & Hr & Hc' & Ht').
      * lia.
      * lia.
      * intros t Ht1. apply HH. lia.
      * exact HL.
      * exists (S n), m'. cbn [run]. rewrite Hs. repeat split.
        -- exact Hr.
        -- lia.
        -- lia.
        -- congruence.
Qed.

(** One READ_BIT on one well-formed pulse starting at [s]: the bit is
    sampled as sent, and control is back before the next pulse. *)
Lemma READ_BIT_pulse (k : nat) (r : reg) (s : nat) (b : bool) (m : machine) :
  nth_error (capture_start TWO_LEDS) k = Some r ->
  (clk m <= s)%nat -> low din (clk m) s -> pulse din s b ->
  exists n m', run TWO_LEDS din n (at_READ_BIT_1 k, m) = (after_bit k, m')
               /\ (s + 11 <= clk m' <= s + 17)%nat
               /\ trace m' = EvSample r b :: trace m
               /\ low din (clk m') (s + T_bit).
Proof.
  intros E H1 HL HP. pose proof (pulse_tail_low din s b HP) as HT.
  destruct (wait_rise k r s (s - clk m) m E) as (n1 & m1 & R1 & C1 & T1);
    [lia|lia|exact HL|].
  destruct (READ_BIT_1_high k r m1 E) as (m2 & R2 & C2 & T2).
  { apply (pulse_high din s b); [exact HP|lia|destruct b; cbn; lia]. }
  assert (Hb : din (clk m1 + 7) = b).
  { destruct b.
    - apply (pulse_high din s true); [exact HP|lia|cbn; lia].
    - apply (pulse_low din s false); [exact HP|cbn; lia|unfold T_bit; lia]. }
  rewrite Hb in T2.
  destruct b.
  - destruct (wait_fall k (s + 13) 2 m2) as (n3 & m3 & R3 & C3 & T3).
    + lia.
    + lia.
    + intros t Ht. apply (pulse_high din s true); [exact HP|lia|cbn; lia].
    + intros t Ht.
      apply (pulse_low din s true); [exact HP|cbn; lia|unfold T_bit; lia].
    + exists (n1 + S n3)%nat, m3. rewrite run_add, R1. cbn [run].
      rewrite R2. repeat split; [exact R3|lia|lia|congruence|].
      eapply low_weaken; [exact HT|cbn; lia|lia].
  - destruct (READ_BIT_2_low k m2) as (m3 & R3 & C3 & T3).
    { apply (pulse_low din s false); [exact HP|cbn; lia|unfold T_bit; lia]. }
    exists (n1 + 2)%nat, m3. rewrite run_add, R1. cbn [run].
    rewrite R2, R3. repeat split; [lia|lia|congruence|].
    eapply low_weaken; [exact HT|cbn; lia|lia].
Qed.

(** The events a run of READ_BITs on the operands [rs] adds to the
    trace when it samples the bits [bs]. *)
Fixpoint sampled (rs : list reg) (bs : list bool) (tr : list event)
  : list event :=
  match rs, bs with
  | r :: rs', b :: bs' => sampled rs' bs' (EvSample r b :: tr)
  | _, _ => tr
  end.

Lemma sampled_nil (rs : list reg) (tr : list event) : sampled rs [] tr = tr.
Proof. destruct rs; reflexivity. Qed.

Lemma skipn_nth {A : Type} (l : list A) (k : nat) (x : A) :
  nth_error l k = Some x -> skipn k l = x :: skipn (S k) l.
Proof.
  revert k; induction l as [|a l IH]; intros [|k] H; try discriminate.
  - injection H as ->. reflexivity.
  - cbn [skipn]. rewrite (IH k H). reflexivity.
Qed.

(** Capture of a train of well-formed pulses starting at [s], from the
    READ_BIT number [k] on. *)
Lemma capture_pulses (bs : list bool) :
  forall (k s : nat) (m : machine),
    bs <> [] ->
    (k + length bs <= length (capture_start TWO_LEDS))%nat ->
    (clk m <= s)%nat -> low din (clk m) s -> pulses din s bs ->
    exists n m',
      run TWO_LEDS din n (at_READ_BIT_1 k, m) =
        (after_bit (k + length bs - 1), m')
      /\ (s + T_bit * length bs - 9 <= clk m' <= s + T_bit * length bs - 3)%nat
      /\ trace m' = sampled (skipn k (capture_start TWO_LEDS)) bs (trace m)
      /\ low din (clk m') (s + T_bit * length bs).
Proof.
  induction bs as [|b bs IH]; intros k s m Hne Hk Hc HL HP;
    [congruence|].
  cbn [length pulses] in *. destruct HP as [HP HPs].
  destruct (nth_error (capture_start TWO_LEDS) k) as [r|] eqn:E.
  2:{ apply nth_error_None in E. lia. }
  destruct (READ_BIT_pulse k r s b m E Hc HL HP)
    as (n1 & m1 & R1 & C1 & T1 & L1).
  rewrite (skipn_nth _ _ _ E). cbn [sampled].
  destruct bs as [|b' bs'].
  - exists n1, m1. cbn [length]. rewrite sampled_nil.
    replace (k + 1 - 1)%nat with k by lia.
    unfold T_bit in *. repeat split; try assumption; try lia.
  - destruct (IH (S k) (s + T_bit)%nat m1) as (n2 & m2 & R2 & C2 & T2 & L2).
    + discriminate.
    + cbn [length] in *. lia.
    + unfold T_bit. lia.
    + exact L1.
    + exact HPs.
    + exists (n1 + n2)%nat, m2. rewrite run_add, R1.
      assert (Ha : after_bit k = at_READ_BIT_1 (S k)).
      { unfold after_bit.
        destruct (Nat.ltb_spec (S k) (length (capture_start TWO_LEDS)));
          [reflexivity|cbn [length] in *; lia]. }
      rewrite Ha, R2. cbn [length] in *.
      replace (k + S (S (length bs')) - 1)%nat
        with (S k + S (length bs') - 1)%nat by lia.
      unfold T_bit in *. repeat split; try lia.
      * rewrite T2, T1. reflexivity.
      * eapply low_weaken; [exact L2|lia|lia].
Qed.

End Bits.

(** ** The relay phase on the line *)

Definition is_out (e : event) : Prop :=
  match e with EvOut _ _ => True | _ => False end.

(** [tr'] extends [tr] with writes of the data-out pin only. *)
Definition relayed_over (tr' tr : list event) : Prop :=
  exists evs, tr' = evs ++ tr /\ Forall is_out evs.

Lemma relayed_refl (tr : list event) : relayed_over tr tr.
Proof. exists []. split; [reflexivity|constructor]. Qed.

Lemma relayed_trans (t3 t2 t1 : list event) :
  relayed_over t3 t2 -> relayed_over t2 t1 -> relayed_over t3 t1.
Proof.
  intros (e2 & -> & H2) (e1 & -> & H1). exists (e2 ++ e1).
  split; [apply app_assoc|apply Forall_app; auto].
Qed.

Lemma relayed_out (l : bool) (t : nat) (tr' tr : list event) :
  relayed_over tr' tr -> relayed_over (EvOut l t :: tr') tr.
Proof.
  intros (e & -> & H). exists (EvOut l t :: e).
  split; [reflexivity|constructor; [exact I|exact H]].
Qed.

Lemma relayed_frame_samples (tr' tr : list event) :
  relayed_over tr' tr -> frame_samples tr' = frame_samples tr.
Proof.
  intros (e & -> & H). induction H as [|x l Hx _ IH]; [reflexivity|].
  destruct x; try contradiction. exact IH.
Qed.

Lemma relayed_commit_log (tr' tr : list event) :
  relayed_over tr' tr -> commit_log tr' = commit_log tr.
Proof.
  intros (e & -> & H). induction H as [|x l Hx _ IH]; [reflexivity|].
  destruct x; try contradiction. exact IH.
Qed.

Lemma relayed_commits (tr' tr : list event) :
  relayed_over tr' tr -> commits tr' = commits tr.
Proof.
  intros (e & -> & H). induction H as [|x l Hx _ IH]; [reflexivity|].
  destruct x; try contradiction. exact IH.
Qed.

Section Relay.

Variable TWO_LEDS : bool.
Variable din : nat -> bool.

(** Polling in relay_entry until the edge at [s], well inside the
    budget of 256 checks. *)
Lemma relay_wait (s d : nat) :
  forall (i : nat) (m : machine),
    (clk m <= s + 2)%nat -> (s <= clk m + 3 * d)%nat -> (i + d <= 255)%nat ->
    low din (clk m) s ->
    exists n i' m',
      run TWO_LEDS din n (at_relay_entry i, m) = (at_relay_entry i', m')
      /\ (s <= clk m' <= s + 2)%nat /\ trace m' = trace m.
Proof.
  induction d as [|d IH]; intros i m H1 H2 H3 HL.
  - exists O, i, m. cbn. repeat split; lia.
  - destruct (Nat.le_gt_cases s (clk m)) as [Hge|Hlt].
    + exists O, i, m. cbn. repeat split; lia.
    + assert (Hd : din (clk m) = false) by (apply HL; lia).
      destruct (IH (S i) (tick 3 m)) as (n & i' & m' & R & C & T).
      * cbn. lia.
      * cbn. lia.
      * lia.
      * eapply low_weaken; [exact HL|cbn; lia|lia].
      * exists (S n), i', m'. cbn [run loop_step].
        rewrite (relay_entry_low din i m Hd).
        destruct (Nat.ltb_spec (S i) 256); [|lia].
        cbn in C. repeat split; [exact R|lia|lia|exact T].
Qed.

(** One pulse relayed: the forwarder is polling again 18 cycles after
    it saw the edge, before the next pulse can start. *)
Lemma relay_pulse (s : nat) (b : bool) (m : machine) :
  (clk m <= s)%nat -> (s <= clk m + 765)%nat ->
  low din (clk m) s -> pulse din s b ->
  exists n m',
    run TWO_LEDS din n (at_relay_entry 0, m) = (at_relay_entry 0, m')
    /\ (s + 18 <= clk m' <= s + 20)%nat
    /\ relayed_over (trace m') (trace m)
    /\ low din (clk m') (s + T_bit).
Proof.
  intros H1 H2 HL HP.
  destruct (relay_wait s 255 0 m) as (n & i' & m1 & R & C & T);
    [lia|lia|lia|exact HL|].
  assert (Hh : din (clk m1) = true).
  { apply (pulse_high din s b); [exact HP|lia|destruct b; cbn; lia]. }
  exists (n + 2)%nat. rewrite run_add, R. cbn [run loop_step].
  rewrite (relay_entry_high din i' m1 Hh). cbn [loop_step].
  rewrite relay_bit_eq. cbn [clk regs mem trace].
  assert (Hb1 : din (clk m1 + 7) = b).
  { destruct b.
    - apply (pulse_high din s true); [exact HP|lia|cbn; lia].
    - apply (pulse_low din s false); [exact HP|cbn; lia|unfold T_bit; lia]. }
  rewrite Hb1.
  assert (Hb2 : din (clk m1 + 7 + (if b then 2 else 3)) = b).
  { destruct b.
    - apply (pulse_high din s true); [exact HP|lia|cbn; lia].
    - apply (pulse_low din s false); [exact HP|cbn; lia|unfold T_bit; lia]. }
  rewrite Hb2.
  eexists. split; [reflexivity|]. cbn [clk trace].
  pose proof (pulse_tail_low din s b HP) as HT.
  split; [destruct b; lia|]. split.
  - apply relayed_out. rewrite <- T.
    destruct b; cbn [app]; repeat apply relayed_out; apply relayed_refl.
  - eapply low_weaken; [exact HT|destruct b; cbn; lia|lia].
Qed.

(** Any number of pulses relayed, one after the other. *)
Lemma relay_pulses (bs : list bool) :
  forall (s : nat) (m : machine),
    (clk m <= s)%nat -> (s <= clk m + 765)%nat ->
    low din (clk m) s -> pulses din s bs ->
    exists n m',
      run TWO_LEDS din n (at_relay_entry 0, m) = (at_relay_entry 0, m')
      /\ (clk m <= clk m' <= s + T_bit * length bs)%nat
      /\ (s + T_bit * length bs <= clk m' + 765)%nat
      /\ (bs <> [] -> s + T_bit * length bs <= clk m' + 2)%nat
      /\ relayed_over (trace m') (trace m)
      /\ low din (clk m') (s + T_bit * length bs).
Proof.
  induction bs as [|b bs IH]; intros s m H1 H2 HL HP.
  - exists O, m. cbn [run length]. rewrite Nat.mul_0_r, Nat.add_0_r.
    repeat split; try assumption; try lia; try congruence. apply relayed_refl.
  - destruct HP as [HP HPs].
    destruct (relay_pulse s b m H1 H2 HL HP) as (n1 & m1 & R1 & C1 & T1 & L1).
    destruct (IH (s + T_bit)%nat m1)
      as (n2 & m2 & R2 & C2 & D2 & N2 & T2 & L2).
    + unfold T_bit. lia.
    + unfold T_bit. lia.
    + exact L1.
    + exact HPs.
    + exists (n1 + n2)%nat, m2. rewrite run_add, R1, R2.
      cbn [length]. unfold T_bit in *.
      repeat split; try lia.
      * intros _. destruct bs as [|b' bs'].
        -- cbn [length] in *. lia.
        -- specialize (N2 ltac:(discriminate)). cbn [length] in *. lia.
      * eapply relayed_trans; eassumption.
      * eapply low_weaken; [exact L2|lia|lia].
Qed.

(** The idle gap: the remaining checks all see the line low. *)
Lemma relay_idle (d : nat) :
  forall (i : nat) (m : machine),
    (i + S d = 256)%nat -> low din (clk m) (clk m + 3 * S d) ->
    exists m',
      run TWO_LEDS din (S d) (at_relay_entry i, m) = (at_update_now, m')
      /\ clk m' = (clk m + 3 * S d + 3)%nat /\ trace m' = trace m
      /\ regs m' = regs m /\ mem m' = mem m.
Proof.
  induction d as [|d IH]; intros i m Hi HL.
  - assert (Hd : din (clk m) = false) by (apply HL; lia).
    cbn [run loop_step]. rewrite (relay_entry_low din i m Hd).
    destruct (Nat.ltb_spec (S i) 256); [lia|].
    eexists. split; [reflexivity|]. cbn. repeat split; lia.
  - assert (Hd : din (clk m) = false) by (apply HL; lia).
    destruct (IH (S i) (tick 3 m)) as (m' & R & C & T & Rg & Me).
    + lia.
    + eapply low_weaken; [exact HL|cbn; lia|cbn; lia].
    + exists m'. cbn [run loop_step] in *.
      rewrite (relay_entry_low din i m Hd).
      destruct (Nat.ltb_spec (S i) 256); [|lia].
      cbn in C. repeat split; [exact R|lia|exact T|exact Rg|exact Me].
Qed.

End Relay.

(** ** What a commit stores *)

(** The six duty values a commit must store for a frame with the samples
    [fs], in the order OCR1A, OCR1B, OCR2A, OCR2B, OCR0B, OCR0A. *)
Definition duty (TWO_LEDS : bool) (fs : list (reg * bool))
  : Z * Z * Z * Z * Z * Z :=
  let v r := 255 - byte_of_bits (bits_into r fs) in
  (v r17, v r16, v r18,
   if TWO_LEDS then v r20 else 255,
   if TWO_LEDS then v r19 else 255,
   if TWO_LEDS then v r21 else 255).

Definition entry_ok (TWO_LEDS : bool)
  (e : list (reg * bool) * (Z * Z * Z * Z * Z * Z)) : Prop :=
  map fst (fst e) = capture_start TWO_LEDS /\ snd e = duty TWO_LEDS (fst e).

Lemma bits_into_length (r : reg) (fs : list (reg * bool)) :
  length (bits_into r fs) =
  length (filter (fun x => reg_eqb x r) (map fst fs)).
Proof.
  unfold bits_into. induction fs as [|[x b] fs IH]; [reflexivity|].
  cbn [filter map fst]. destruct (reg_eqb x r); cbn [length map]; lia.
Qed.

Lemma bits_into_8 (TWO_LEDS : bool) (r : reg) (fs : list (reg * bool)) :
  map fst fs = capture_start TWO_LEDS ->
  In r (capture_start TWO_LEDS) ->
  length (bits_into r fs) = 8%nat.
Proof.
  intros H HI. rewrite bits_into_length, H.
  destruct TWO_LEDS; destruct r; try reflexivity;
    cbn in HI; repeat (destruct HI as [HI|HI]; [discriminate|]);
    contradiction.
Qed.

Section Commits.

Variable TWO_LEDS : bool.
Variable din : nat -> bool.

(** Only update_now commits. *)
Lemma commit_log_step (s : state) :
  fst s <> at_update_now ->
  commit_log (trace (snd (loop_step TWO_LEDS din s))) =
    commit_log (trace (snd s)) /\
  commits (trace (snd (loop_step TWO_LEDS din s))) =
    commits (trace (snd s)).
Proof.
  destruct s as [pc [rg me o c tr]]; destruct pc; intro H;
    try (exfalso; apply H; reflexivity);
    step_cases TWO_LEDS din; cbn [commit_log commits]; split; reflexivity.
Qed.

(** The invariant of all runs from power-on. *)
Definition sound (s : state) : Prop :=
  capturing TWO_LEDS s /\
  Forall (entry_ok TWO_LEDS) (commit_log (trace (snd s))) /\
  (TWO_LEDS = false -> pixel2_off s).

Lemma sound_step (s : state) : sound s -> sound (loop_step TWO_LEDS din s).
Proof.
  intros (Hc & Hl & Hp). split; [apply capturing_step, Hc|]. split.
  2:{ intro E. specialize (Hp E). revert Hp. subst TWO_LEDS.
      apply pixel2_off_step. }
  destruct s as [pc m].
  assert (Hcases : pc = at_update_now \/ pc <> at_update_now)
    by (destruct pc; auto; right; discriminate).
  destruct Hcases as [->|Hn].
  2:{ destruct (commit_log_step (pc, m) Hn) as [-> _]. exact Hl. }
  cbn [loop_step]. rewrite update_now_trace. cbn [commit_log].
  constructor; [|exact Hl].
  destruct Hc as [[Hpos Hpre] [origin Hs]]. cbn [fst snd position] in *.
  rewrite Hpos, firstn_all in Hpre.
  pose proof (shifted_bytes_ok origin _ Hs) as Hb.
  unfold bytes_ok in Hb. cbn [snd] in Hb.
  assert (H8 : forall r, In r (capture_start TWO_LEDS) ->
               regs m r = byte_of_bits (bits_into r (frame_samples (trace m)))).
  { intros r Hr. apply Hb.
    - intros ->. destruct TWO_LEDS; cbn in Hr;
        repeat (destruct Hr as [Hr|Hr]; [discriminate|]); contradiction.
    - apply (bits_into_8 TWO_LEDS); assumption. }
  split; [exact Hpre|]. cbn [fst snd]. unfold duty.
  rewrite <- (H8 r16), <- (H8 r17), <- (H8 r18)
    by (destruct TWO_LEDS; cbn; tauto).
  destruct TWO_LEDS.
  - rewrite <- (H8 r19), <- (H8 r20), <- (H8 r21) by (cbn; tauto).
    reflexivity.
  - destruct (Hp eq_refl) as (Hr & _). cbn [fst snd] in Hr.
    destruct (Hr ltac:(discriminate)) as (-> & -> & ->). reflexivity.
Qed.

Lemma sound_run (n : nat) (s : state) :
  sound s -> sound (run TWO_LEDS din n s).
Proof.
  revert s; induction n as [|n IH]; intros s H; simpl; [exact H|].
  apply IH, sound_step, H.
Qed.

Lemma sound_boot (power_on : reg -> Z) : sound (boot power_on).
Proof.
  split; [apply capturing_boot|]. split; [constructor|].
  intros _. apply pixel2_off_boot.
Qed.

End Commits.

(** ** Whole frames *)

Lemma pulses_app (din : nat -> bool) (bs1 bs2 : list bool) (s : nat) :
  pulses din s (bs1 ++ bs2) ->
  pulses din s bs1 /\ pulses din (s + T_bit * length bs1) bs2.
Proof.
  revert s; induction bs1 as [|b bs1 IH]; intros s H.
  - cbn [app pulses length]. rewrite Nat.mul_0_r, Nat.add_0_r. auto.
  - cbn [app pulses length] in *. destruct H as [H1 H2].
    destruct (IH _ H2) as [H3 H4]. repeat split; auto.
    replace (s + T_bit * S (length bs1))%nat
      with (s + T_bit + T_bit * length bs1)%nat by lia.
    exact H4.
Qed.

Lemma frame_samples_sampled (rs : list reg) :
  forall (bs : list bool) (tr : list event),
    frame_samples (sampled rs bs tr) = frame_samples tr ++ combine rs bs.
Proof.
  induction rs as [|r rs IH]; intros bs tr; cbn [sampled combine].
  - rewrite app_nil_r. reflexivity.
  - destruct bs as [|b bs]; cbn [combine].
    + rewrite app_nil_r. reflexivity.
    + rewrite IH. cbn [frame_samples]. rewrite <- app_assoc. reflexivity.
Qed.

Lemma commits_sampled (rs : list reg) :
  forall (bs : list bool) (tr : list event),
    commits (sampled rs bs tr) = commits tr /\
    commit_log (sampled rs bs tr) = commit_log tr.
Proof.
  induction rs as [|r rs IH]; intros bs tr; cbn [sampled]; [auto|].
  destruct bs as [|b bs]; [auto|]. destruct (IH bs (EvSample r b :: tr)).
  cbn [commits commit_log] in *. auto.
Qed.

Section Frames.

Variable TWO_LEDS : bool.
Variable din : nat -> bool.

(** A machine about to capture, with no sample taken yet. *)
Lemma capturing_fresh (m : machine) :
  frame_samples (trace m) = [] -> capturing TWO_LEDS (at_READ_BIT_1 0, m).
Proof.
  intro H. split.
  - unfold framing. cbn [fst snd]. rewrite H. cbn [length position firstn map].
    rewrite capture_length. destruct TWO_LEDS; repeat split; lia.
  - exists (regs m). intros r _. cbn [snd]. rewrite H. reflexivity.
Qed.

(** While the line stays low, READ_BIT number [k] keeps polling: no
    register, no compare register and no event changes. *)
Lemma READ_BIT_idle (k : nat) (T : nat) (m : machine) :
  (k < length (capture_start TWO_LEDS))%nat -> low din (clk m) T ->
  forall n,
    let s := run TWO_LEDS din n (at_READ_BIT_1 k, m) in
    (clk (snd s) <= T)%nat ->
    fst s = at_READ_BIT_1 k /\ trace (snd s) = trace m /\
    regs (snd s) = regs m /\ mem (snd s) = mem m.
Proof.
  intros Hk HL n. cbv zeta.
  destruct (nth_error (capture_start TWO_LEDS) k) as [r|] eqn:E.
  2:{ apply nth_error_None in E. lia. }
  induction n as [|n IH]; [cbn; auto|].
  rewrite run_S_r. intro Hc.
  pose proof (clk_step TWO_LEDS din (run TWO_LEDS din n (at_READ_BIT_1 k, m)))
    as Hmono.
  pose proof (clk_run TWO_LEDS din n (at_READ_BIT_1 k, m)) as Hge.
  destruct (run TWO_LEDS din n (at_READ_BIT_1 k, m)) as [pc mn].
  cbn [fst snd] in *. destruct IH as (-> & Ht & Hr & Hm); [lia|].
  destruct (din (clk mn)) eqn:Ed.
  - exfalso. destruct (READ_BIT_1_high TWO_LEDS din k r mn E Ed)
      as (m' & Hs & Hc' & _).
    rewrite Hs in Hc. cbn [snd] in Hc.
    assert (din (clk mn) = false) by (apply HL; lia). congruence.
  - destruct (READ_BIT_1_low TWO_LEDS din k r mn E Ed)
      as (m' & Hs & _ & Ht' & Hr' & Hm').
    rewrite Hs. cbn [fst snd]. repeat split; congruence.
Qed.

(** A whole frame: the captured bits, any number of relayed bits, the
    idle gap; then the commit. *)
Lemma frame_commit (m : machine) (s : nat) (bits relayed : list bool) :
  frame_samples (trace m) = [] ->
  (clk m <= s)%nat -> low din (clk m) s ->
  length bits = length (capture_start TWO_LEDS) ->
  pulses din s (bits ++ relayed) ->
  low din (s + T_bit * (length bits + length relayed))
          (s + T_bit * (length bits + length relayed) + 768) ->
  exists n m3,
    run TWO_LEDS din n (at_READ_BIT_1 0, m) = (at_update_now, m3) /\
    frame_samples (trace m3) = combine (capture_start TWO_LEDS) bits /\
    commits (trace m3) = commits (trace m) /\
    (forall r, In r (capture_start TWO_LEDS) ->
       regs m3 r =
       byte_of_bits (bits_into r (combine (capture_start TWO_LEDS) bits))).
Proof.
  intros Hfs Hc HL Hlen HP Hidle.
  pose proof (capture_length TWO_LEDS) as HN.
  destruct (pulses_app _ _ _ _ HP) as [HP1 HP2].
  destruct (capture_pulses TWO_LEDS din bits 0 s m)
    as (n1 & m1 & R1 & C1 & T1 & L1); try assumption.
  { intros ->. cbn in Hlen. destruct TWO_LEDS; lia. }
  { lia. }
  assert (Ha : after_bit TWO_LEDS (0 + length bits - 1) = at_relay_entry 0).
  { unfold after_bit.
    destruct (Nat.ltb_spec (S (0 + length bits - 1))
                           (length (capture_start TWO_LEDS))); [lia|reflexivity]. }
  rewrite Ha in R1. cbn [skipn] in T1.
  destruct (relay_pulses TWO_LEDS din relayed (s + T_bit * length bits)%nat m1)
    as (n2 & m2 & R2 & C2 & D2 & _ & T2 & L2); try assumption.
  { unfold T_bit in *. destruct TWO_LEDS; lia. }
  { unfold T_bit in *. destruct TWO_LEDS; lia. }
  destruct (relay_idle TWO_LEDS din 255 0 m2) as (m3 & R3 & C3 & T3 & G3 & M3).
  { reflexivity. }
  { eapply low_join; [exact L2|].
    eapply low_weaken; [exact Hidle|unfold T_bit; lia|unfold T_bit in *; lia]. }
  assert (Hrun : run TWO_LEDS din (n1 + (n2 + 256)) (at_READ_BIT_1 0, m)
                 = (at_update_now, m3)).
  { rewrite run_add, R1, run_add, R2. exact R3. }
  assert (Hfs3 : frame_samples (trace m3) = combine (capture_start TWO_LEDS) bits).
  { rewrite T3, (relayed_frame_samples _ _ T2), T1, frame_samples_sampled, Hfs.
    reflexivity. }
  exists (n1 + (n2 + 256))%nat, m3. split; [exact Hrun|].
  split; [exact Hfs3|]. split.
  { rewrite T3, (relayed_commits _ _ T2), T1.
    apply (commits_sampled (capture_start TWO_LEDS) bits (trace m)). }
  intros r Hr.
  pose proof (capturing_run TWO_LEDS din (n1 + (n2 + 256)) _
                (capturing_fresh m Hfs)) as [[Hpos Hpre] [origin Hsh]].
  rewrite Hrun in *. cbn [fst snd position] in *.
  rewrite Hpos, firstn_all in Hpre.
  rewrite <- Hfs3.
  apply (shifted_bytes_ok origin (at_update_now, m3) Hsh).
  - intros ->. destruct TWO_LEDS; cbn in Hr;
      repeat (destruct Hr as [Hr|Hr]; [discriminate|]); contradiction.
  - cbn [snd]. apply (bits_into_8 TWO_LEDS); assumption.
Qed.

End Frames.

(** ** The idle gap seen from relay_entry *)

Section Idle.

Variable TWO_LEDS : bool.
Variable din : nat -> bool.

(** The first [k] checks see the line low. *)
Lemma relay_polls_low (k : nat) :
  forall (i : nat) (m : machine),
    (i + k <= 255)%nat ->
    (forall j, (j < k)%nat -> din (clk m + 3 * j) = false) ->
    exists m',
      run TWO_LEDS din k (at_relay_entry i, m) = (at_relay_entry (i + k), m')
      /\ clk m' = (clk m + 3 * k)%nat /\ trace m' = trace m.
Proof.
  induction k as [|k IH]; intros i m Hi HL.
  - exists m. rewrite Nat.add_0_r. cbn. repeat split; lia.
  - assert (Hd : din (clk m) = false).
    { rewrite <- (HL O) by lia. f_equal. lia. }
    destruct (IH (S i) (tick 3 m)) as (m' & R & C & T).
    + lia.
    + intros j Hj. rewrite <- (HL (S j)) by lia. f_equal. cbn. lia.
    + exists m'. cbn [run loop_step]. rewrite (relay_entry_low din i m Hd).
      destruct (Nat.ltb_spec (S i) 256); [|lia].
      replace (i + S k)%nat with (S i + k)%nat by lia.
      cbn in C. repeat split; [exact R|lia|exact T].
Qed.

(** Where the loop is after [n] transitions from relay_entry, as long as
    the line has been low. *)
Definition idle_point (m : machine) (n : nat) (s : state) : Prop :=
  ((n < 256)%nat /\ fst s = at_relay_entry n /\
   trace (snd s) = trace m /\ clk (snd s) = (clk m + 3 * n)%nat) \/
  (n = 256%nat /\ fst s = at_update_now /\ trace (snd s) = trace m) \/
  ((256 < n)%nat /\ fst s = at_READ_BIT_1 0 /\
   commits (trace (snd s)) = S (commits (trace m))).

Lemma idle_run (T : nat) (m : machine) :
  low din (clk m) T ->
  forall n,
    (clk (snd (run TWO_LEDS din n (at_relay_entry 0, m))) <= T)%nat ->
    idle_point m n (run TWO_LEDS din n (at_relay_entry 0, m)).
Proof.
  intros HL n. induction n as [|n IH].
  - intros _. left. cbn [run fst snd]. repeat split; lia.
  - rewrite run_S_r. intro Hc.
    pose proof (clk_step TWO_LEDS din (run TWO_LEDS din n (at_relay_entry 0, m)))
      as Hmono.
    pose proof (clk_run TWO_LEDS din n (at_relay_entry 0, m)) as Hge.
    destruct (run TWO_LEDS din n (at_relay_entry 0, m)) as [pc mn].
    unfold idle_point in *. cbn [fst snd] in *.
    destruct IH as [(Hn & -> & Ht & Hk)|[(-> & -> & Ht)|(Hn & -> & Hk)]];
      [lia| | |].
    + (* a check of relay_entry *)
      cbn [loop_step] in *.
      destruct (din (clk mn)) eqn:Ed.
      * exfalso. rewrite (relay_entry_high din n mn Ed) in Hc. cbn in Hc.
        assert (din (clk mn) = false) by (apply HL; lia). congruence.
      * rewrite (relay_entry_low din n mn Ed).
        destruct (Nat.ltb_spec (S n) 256).
        -- left. cbn. repeat split; [lia|exact Ht|lia].
        -- right; left. cbn. repeat split; [lia|exact Ht].
    + (* the commit *)
      right; right. cbn [loop_step]. rewrite update_now_pc, update_now_trace.
      cbn [commits]. rewrite Ht. repeat split; lia.
    + (* capture waits for the next frame *)
      right; right.
      assert (E : nth_error (capture_start TWO_LEDS) 0 = Some r16)
        by (destruct TWO_LEDS; reflexivity).
      destruct (din (clk mn)) eqn:Ed.
      * exfalso. destruct (READ_BIT_1_high TWO_LEDS din 0 r16 mn E Ed)
          as (m' & Hs & Hc' & _).
        rewrite Hs in Hc. cbn [snd] in Hc.
        assert (din (clk mn) = false) by (apply HL; lia). congruence.
      * destruct (READ_BIT_1_low TWO_LEDS din 0 r16 mn E Ed)
          as (m' & Hs & _ & Ht' & _).
        rewrite Hs. cbn [fst snd]. rewrite Ht'. repeat split; [lia|exact Hk].
Qed.

End Idle.

(** ** Checking a concrete line *)

Lemma lowb_low (din : nat -> bool) (a b : nat) :
  lowb din a b = true -> low din a b.
Proof.
  unfold lowb. intros H t Ht. rewrite forallb_forall in H.
  apply negb_true_iff, H, in_seq. lia.
Qed.

Lemma pulseb_pulse (din : nat -> bool) (s : nat) (b : bool) :
  pulseb din s b = true -> pulse din s b.
Proof.
  unfold pulseb. intros H t Ht. rewrite forallb_forall in H.
  apply eqb_prop, H, in_seq. lia.
Qed.

Lemma pulsesb_pulses (din : nat -> bool) (bs : list bool) :
  forall s, pulsesb din s bs = true -> pulses din s bs.
Proof.
  induction bs as [|b bs IH]; intros s H; cbn in *; [exact I|].
  apply andb_true_iff in H. destruct H as [H1 H2].
  split; [apply pulseb_pulse, H1|apply IH, H2].
Qed.

(** * The claims *)









(** C4.  From relay_entry, on any line: (1) while the line has been low
    since relay_entry, the number of commits is the one before for the
    first 256 transitions (the 256 checks) and exactly one more ever
    after, however long the line stays low; (2) if the line is low for
    the 256 checks, the 256th transition reaches update_now and the
    next one commits and goes to capture; (3) if check number [k] < 256
    is the first to see the line high, control goes to relay_bit and
    from there to the first check of relay_entry again (the full budget
    of 256), without a commit. *)
Theorem idle_gap_commits_once (TWO_LEDS : bool) (din : nat -> bool)
                              (m : machine) :
  let at_n n := run TWO_LEDS din n (at_relay_entry 0, m) in
  (forall (T n : nat),
     low din (clk m) T -> (clk (snd (at_n n)) <= T)%nat ->
     commits (trace (snd (at_n n))) =
     (commits (trace m) + (if Nat.leb n 256 then 0 else 1))%nat) /\
  (low din (clk m) (clk m + 768)%nat ->
   fst (at_n 256%nat) = at_update_now /\
   fst (at_n 257%nat) = at_READ_BIT_1 0 /\
   commits (trace (snd (at_n 257%nat))) = S (commits (trace m))) /\
  (forall k : nat,
     (k < 256)%nat ->
     (forall j, (j < k)%nat -> din (clk m + 3 * j)%nat = false) ->
     din (clk m + 3 * k)%nat = true ->
     fst (at_n (S k)) = at_relay_bit /\
     fst (at_n (S (S k))) = at_relay_entry 0 /\
     commits (trace (snd (at_n (S (S k))))) = commits (trace m)).
Proof.
  cbv zeta. split; [|split].
  - intros T n HL Hc.
    destruct (idle_run TWO_LEDS din T m HL n Hc)
      as [(Hn & _ & Ht & _)|[(-> & _ & Ht)|(Hn & _ & Hk)]].
    + destruct (Nat.leb_spec n 256); [|lia]. rewrite Ht. lia.
    + rewrite Ht. cbn. lia.
    + destruct (Nat.leb_spec n 256); [lia|]. rewrite Hk. lia.
  - intro HL.
    destruct (relay_idle TWO_LEDS din 255 0 m eq_refl)
      as (m' & R & _ & T & _).
    { eapply low_weaken; [exact HL|lia|lia]. }
    rewrite (run_S_r TWO_LEDS din 256), R. cbn [fst loop_step].
    rewrite update_now_pc, update_now_trace. cbn [commits]. rewrite T. auto.
  - intros k Hk HL Hh.
    destruct (relay_polls_low TWO_LEDS din k 0 m) as (m1 & R & C & T);
      [lia|exact HL|].
    rewrite <- C in Hh.
    rewrite (run_S_r TWO_LEDS din (S k)), (run_S_r TWO_LEDS din k), R.
    cbn [loop_step]. rewrite (relay_entry_high din (0 + k) m1 Hh).
    cbn [fst loop_step]. rewrite relay_bit_eq. cbn [fst snd trace clk].
    repeat split.
    destruct (din (clk m1 + 7)%nat); cbn [app commits]; rewrite T; reflexivity.
Qed.

Lemma idle_gap_commits_once_witness :
  (commits (trace (snd (run true (wave 5000 [true]) 300
                            (at_relay_entry 0, blank 0)))) = 1%nat) /\
  (fst (run true (wave 5000 [true]) 257 (at_relay_entry 0, blank 0))
   = at_READ_BIT_1 0) /\
  (fst (run true (wave 9 [true]) 4 (at_relay_entry 0, blank 0))
   = at_relay_bit).
Proof.
  pose proof (idle_gap_commits_once true (wave 5000 [true]) (blank 0)) as H1.
  pose proof (idle_gap_commits_once true (wave 9 [true]) (blank 0)) as H2.
  cbv zeta in H1, H2. split; [|split].
  - apply (proj1 H1 5000%nat 300%nat).
    + apply lowb_low. vm_compute. reflexivity.
    + vm_compute. lia.
  - apply (proj2 H1). apply lowb_low. vm_compute. reflexivity.
  - apply (proj2 (proj2 H2) 3%nat).
    + lia.
    + intros j Hj.
      do 3 (destruct j as [|j]; [reflexivity|]). lia.
    + reflexivity.
Defined.

(** C5.  In every run from power-on the data-out pin is low at every
    control point except relay_bit, which is left in one transition: in
    particular at each check of relay_entry, where the forwarder waits
    for the next edge, and at update_now, where it has concluded that
    the frame has ended. *)
Theorem output_low_outside_relay_bit
  (TWO_LEDS : bool) (din : nat -> bool) (power_on : reg -> Z) (n : nat) :
  let s := run TWO_LEDS din n (boot power_on) in
  (fst s <> at_relay_bit -> dout (snd s) = false) /\
  (fst s = at_relay_bit ->
   fst (loop_step TWO_LEDS din s) = at_relay_entry 0 /\
   dout (snd (loop_step TWO_LEDS din s)) = false).
Proof.
  cbv zeta. split.
  - apply out_low_run. intros _. reflexivity.
  - destruct (run TWO_LEDS din n (boot power_on)) as [pc m]. cbn [fst].
    intros ->. cbn [loop_step]. rewrite relay_bit_eq. auto.
Qed.

Lemma output_low_outside_relay_bit_witness :
  dout (snd (run false line_A 500 (boot (fun _ => 0)))) = false /\
  dout (snd (loop_step false line_A
               (run false line_A 406 (boot (fun _ => 0))))) = false.
Proof.
  split.
  - apply (proj1 (output_low_outside_relay_bit false line_A (fun _ => 0) 500)).
    vm_compute. discriminate.
  - apply (proj2 (output_low_outside_relay_bit false line_A (fun _ => 0) 406)).
    vm_compute. reflexivity.
Defined.

(** C7.  With one LED, in every run from power-on: start_frame, which
    loads 255 into r19, r20 and r21, is executed by the first transition
    and never again, whatever the line does; from then on the three
    registers hold 255; no READ_BIT ever shifts a sample into them; the
    second pixel's compare registers OCR2B, OCR0B and OCR0A hold 255 at
    all times and every commit stores 255 into them. *)
Theorem second_pixel_stays_off
  (din : nat -> bool) (power_on : reg -> Z) (n : nat) :
  let s := run false din n (boot power_on) in
  let s1 := run false din (S n) (boot power_on) in
  fst (boot power_on) = at_start_frame /\
  fst s1 <> at_start_frame /\
  (regs (snd s1) r19 = 255 /\ regs (snd s1) r20 = 255 /\
   regs (snd s1) r21 = 255) /\
  (mem (snd s) OCR2B = 255 /\ mem (snd s) OCR0B = 255 /\
   mem (snd s) OCR0A = 255) /\
  Forall pixel2_event (trace (snd s)).
Proof.
  cbv zeta. split; [reflexivity|]. split; [apply start_frame_once|].
  pose proof (pixel2_off_run din n _ (pixel2_off_boot power_on))
    as (_ & Hm & Ht).
  pose proof (pixel2_off_run din (S n) _ (pixel2_off_boot power_on))
    as (Hr & _ & _).
  split; [apply Hr, start_frame_once|]. split; assumption.
Qed.

(** Capture is over: control is in the relay phase or at the commit. *)
Definition capture_done (pc : label) : Prop :=
  match pc with
  | at_relay_entry _ | at_relay_bit | at_update_now => True
  | _ => False
  end.

(** C6.  In every run from power-on, the samples of the current frame
    went to the operands of capture_start in program order; once capture
    is over there are exactly eight per byte, for r16, r17, r18 (24
    samples) with one LED and for r16..r21 (48 samples) with two; and a
    register that has received the eight bits b1..b8, in arrival order,
    holds b1*128 + b2*64 + b3*32 + b4*16 + b5*8 + b6*4 + b7*2 + b8. *)
Theorem capture_msb_first
  (TWO_LEDS : bool) (din : nat -> bool) (power_on : reg -> Z) (n : nat) :
  let s := run TWO_LEDS din n (boot power_on) in
  let fs := frame_samples (trace (snd s)) in
  map fst fs = firstn (length fs) (capture_start TWO_LEDS) /\
  (capture_done (fst s) ->
   map fst fs =
     READ_BYTE r16 ++ READ_BYTE r17 ++ READ_BYTE r18 ++
     (if TWO_LEDS then READ_BYTE r19 ++ READ_BYTE r20 ++ READ_BYTE r21
      else []) /\
   length fs = if TWO_LEDS then 48%nat else 24%nat) /\
  (forall (r : reg) (b1 b2 b3 b4 b5 b6 b7 b8 : bool),
     r <> r22 ->
     bits_into r fs = [b1; b2; b3; b4; b5; b6; b7; b8] ->
     regs (snd s) r =
     Z.b2z b1 * 128 + Z.b2z b2 * 64 + Z.b2z b3 * 32 + Z.b2z b4 * 16 +
     Z.b2z b5 * 8 + Z.b2z b6 * 4 + Z.b2z b7 * 2 + Z.b2z b8).
Proof.
  cbv zeta.
  pose proof (capturing_run TWO_LEDS din n _ (capturing_boot TWO_LEDS power_on))
    as [[Hpos Hpre] [origin Hsh]].
  split; [exact Hpre|]. split.
  - intro Hd.
    assert (HL : length (frame_samples
                           (trace (snd (run TWO_LEDS din n (boot power_on)))))
                 = length (capture_start TWO_LEDS)).
    { destruct (fst (run TWO_LEDS din n (boot power_on)));
        cbn [capture_done position] in *; try contradiction; exact Hpos. }
    split.
    + rewrite Hpre, HL, firstn_all. reflexivity.
    + rewrite HL. apply capture_length.
  - intros r b1 b2 b3 b4 b5 b6 b7 b8 Hr Hb.
    rewrite (shifted_bytes_ok origin _ Hsh r Hr) by (rewrite Hb; reflexivity).
    rewrite Hb. apply byte_of_bits_8.
Qed.

Lemma capture_msb_first_witness :
  let s := run false line_A 500 (boot (fun _ => 0)) in
  length (frame_samples (trace (snd s))) = 24%nat /\
  regs (snd s) r18 = 128.
Proof.
  cbv zeta.
  pose proof (capture_msb_first false line_A (fun _ => 0) 500) as H.
  cbv zeta in H. destruct H as (_ & H1 & H2). split.
  - apply H1. vm_compute. exact I.
  - apply (H2 r18 true false false false false false false false).
    + discriminate.
    + vm_compute. reflexivity.
Defined.

Lemma duty_captured (TWO_LEDS : bool) (fs1 fs2 : list (reg * bool)) :
  captured TWO_LEDS fs1 = captured TWO_LEDS fs2 ->
  duty TWO_LEDS fs1 = duty TWO_LEDS fs2.
Proof.
  unfold captured, duty. destruct TWO_LEDS; cbn [map app]; intro H;
    injection H; intros; congruence.
Qed.

(** C9.  In every run from power-on, the six duty values a commit stores
    are a function of the channel values captured in the frame it
    closes: [duty] of that frame's samples.  So two commits, consecutive
    or not, whose frames captured the same channel values store the same
    six values. *)
Theorem commit_function_of_frame
  (TWO_LEDS : bool) (din : nat -> bool) (power_on : reg -> Z) (n : nat)
  (e1 : list (reg * bool) * (Z * Z * Z * Z * Z * Z)) :
  let log := commit_log (trace (snd (run TWO_LEDS din n (boot power_on)))) in
  In e1 log ->
  snd e1 = duty TWO_LEDS (fst e1) /\
  (forall e2, In e2 log ->
     captured TWO_LEDS (fst e1) = captured TWO_LEDS (fst e2) ->
     snd e1 = snd e2).
Proof.
  cbv zeta. intro H1.
  pose proof (sound_run TWO_LEDS din n _ (sound_boot TWO_LEDS power_on))
    as (_ & Hlog & _).
  rewrite Forall_forall in Hlog.
  destruct (Hlog e1 H1) as [_ E1]. split; [exact E1|].
  intros e2 H2 Hc. destruct (Hlog e2 H2) as [_ E2].
  rewrite E1, E2. apply duty_captured, Hc.
Qed.

(** ** The second pixel's registers with two LEDs *)

Lemma first_24_operands (k : nat) (r : reg) :
  nth_error (capture_start true) k = Some r -> (k < 24)%nat ->
  r = r16 \/ r = r17 \/ r = r18.
Proof.
  intros E Hk.
  do 24 (destruct k as [|k]; [cbn in E; injection E as <-; auto|]). lia.
Qed.

Lemma In_firstn {A : Type} (x : A) (j : nat) (l : list A) :
  In x (firstn j l) -> In x l.
Proof.
  intro H. rewrite <- (firstn_skipn j l). apply in_or_app. left. exact H.
Qed.

Lemma bits_into_none (r : reg) (fs : list (reg * bool)) :
  (forall x, In x (map fst fs) -> reg_eqb x r = false) ->
  bits_into r fs = [].
Proof.
  unfold bits_into. induction fs as [|[x b] fs IH]; intro H; [reflexivity|].
  cbn [filter fst]. rewrite (H x) by (left; reflexivity).
  apply IH. intros y Hy. apply H. right. exact Hy.
Qed.

Section TwoLeds.

Variable din : nat -> bool.

(** Who writes r19, r20, r21: the commit, which complements them, and
    the READ_BITs number 24 to 47; nothing else, start_frame included. *)
Lemma pixel2_regs_step (s : state) (r : reg) :
  r = r19 \/ r = r20 \/ r = r21 ->
  match fst s with
  | at_update_now =>
      regs (snd (loop_step true din s)) r = 255 - regs (snd s) r
  | at_READ_BIT_1 k =>
      (k < 24)%nat -> regs (snd (loop_step true din s)) r = regs (snd s) r
  | _ => regs (snd (loop_step true din s)) r = regs (snd s) r
  end.
Proof.
  intros Hr. destruct s as [pc m]. destruct pc; cbn [fst snd].
  - destruct m as [rg me o c tr]. exec. reflexivity.
  - destruct m as [rg me o c tr].
    destruct Hr as [->|[->| ->]]; exec; reflexivity.
  - destruct m as [rg me o c tr].
    destruct Hr as [->|[->| ->]]; step_cases true din; reflexivity.
  - intro Hk. cbn [loop_step]. unfold READ_BIT_1.
    destruct (nth_error (capture_start true) k) as [r0|] eqn:E.
    2:{ apply nth_error_None in E. cbn in E. lia. }
    destruct m as [rg me o c tr].
    destruct (first_24_operands k r0 E Hk) as [->|[->| ->]];
      destruct Hr as [->|[->| ->]]; step_cases true din; reflexivity.
  - destruct m as [rg me o c tr]. step_cases true din; reflexivity.
  - destruct m as [rg me o c tr]. step_cases true din; reflexivity.
  - destruct m as [rg me o c tr]. step_cases true din; reflexivity.
  - cbn [loop_step]. rewrite update_now_regs.
    destruct Hr as [->|[->| ->]]; reflexivity.
Qed.

(** Until the first commit the registers hold their power-on content,
    with the bits captured so far shifted in. *)
Lemma power_on_shifted (power_on : reg -> Z) (n : nat) :
  commits (trace (snd (run true din n (boot power_on)))) = O ->
  shifted power_on (run true din n (boot power_on)).
Proof.
  induction n as [|n IH].
  - intros _ r _. reflexivity.
  - rewrite run_S_r.
    destruct (run true din n (boot power_on)) as [pc m] eqn:E.
    assert (Hcases : pc = at_update_now \/ pc <> at_update_now)
      by (destruct pc; auto; right; discriminate).
    destruct Hcases as [->|Hn].
    + cbn [loop_step]. rewrite update_now_trace. discriminate.
    + destruct (commit_log_step true din (pc, m) Hn) as [_ Hc].
      rewrite Hc. intro H0. apply shifted_step; auto.
Qed.

End TwoLeds.

(** C10, amended.  With two LEDs, in every run from power-on and for
    each of r19, r20, r21: (1) a transition changes the register only
    if it is the commit, which complements it, or one of the READ_BITs
    number 24 to 47, which shift bits 25 to 48 of the frame into it;
    start_frame and everything else leave it alone, so nothing loads
    the sentinel;
    (2) until the first commit it holds its power-on content with the
    bits captured so far shifted in, and exactly its power-on content
    as long as the first frame has delivered at most 24 bits; (3) every
    commit stores for the second pixel 255 minus the bytes made of bits
    25 to 48 of the frame it closes. *)
Theorem second_pixel_never_initialised
  (din : nat -> bool) (power_on : reg -> Z) (n : nat) (r : reg) :
  r = r19 \/ r = r20 \/ r = r21 ->
  let s := run true din n (boot power_on) in
  let fs := frame_samples (trace (snd s)) in
  match fst s with
  | at_update_now =>
      regs (snd (loop_step true din s)) r = 255 - regs (snd s) r
  | at_READ_BIT_1 k =>
      (k < 24)%nat -> regs (snd (loop_step true din s)) r = regs (snd s) r
  | _ => regs (snd (loop_step true din s)) r = regs (snd s) r
  end /\
  (commits (trace (snd s)) = O ->
   regs (snd s) r = shift_all (power_on r) (bits_into r fs) /\
   ((length fs <= 24)%nat -> regs (snd s) r = power_on r)) /\
  Forall (fun e => snd e = duty true (fst e)) (commit_log (trace (snd s))).
Proof.
  intros Hr. cbv zeta. split; [apply pixel2_regs_step, Hr|]. split.
  - intro H0.
    pose proof (power_on_shifted din power_on n H0 r) as Hs.
    assert (Hr22 : r <> r22) by (destruct Hr as [->|[->| ->]]; discriminate).
    specialize (Hs Hr22). split; [exact Hs|].
    intro Hlen. rewrite Hs, bits_into_none; [reflexivity|].
    pose proof (capturing_run true din n _ (capturing_boot true power_on))
      as [[_ Hpre] _].
    intros x Hx. rewrite Hpre in Hx.
    rewrite <- (Nat.min_l _ _ Hlen), <- firstn_firstn in Hx.
    apply In_firstn in Hx. cbn in Hx.
    repeat (destruct Hx as [<-|Hx];
            [destruct Hr as [->|[->| ->]]; reflexivity|]).
    contradiction.
  - pose proof (sound_run true din n _ (sound_boot true power_on))
      as (_ & Hlog & _).
    eapply Forall_impl; [|exact Hlog]. intros e [_ He]. exact He.
Qed.

Lemma second_pixel_never_initialised_witness :
  regs (snd (run true line_B 400 (boot (fun _ => 7)))) r20 = 7.
Proof.
  pose proof (second_pixel_never_initialised line_B (fun _ => 7) 400 r20) as H.
  cbv zeta in H. destruct H as (_ & H & _); [auto|].
  destruct H as [_ H]; [vm_compute; reflexivity|].
  apply H. vm_compute. repeat constructor.
Defined.

(** C10 as stated fails between bits 25 and 48 of the first frame.
    Power-on leaves 7 in every register; after 440 transitions on the
    line of scenario B the first capture has taken 31 bits and waits
    for the next, nothing is committed, and r19 no longer holds 7 but
    136: the low bit of 7 followed by the seven bits 0001000 captured
    into it.  r20 and r21, not yet reached, still hold 7. *)
Lemma second_pixel_partly_captured :
  let s := run true line_B 440 (boot (fun _ => 7)) in
  fst s = at_READ_BIT_1 31 /\
  commits (trace (snd s)) = 0%nat /\
  length (frame_samples (trace (snd s))) = 31%nat /\
  map (regs (snd s)) [r19; r20; r21] = [136; 7; 7] /\
  bits_into r19 (frame_samples (trace (snd s)))
    = [false; false; false; true; false; false; false].
Proof. vm_compute. repeat split. Qed.

Lemma commit_function_of_frame_witness :
  let log := commit_log (trace (snd (run false line_C 1700
                                         (boot (fun _ => 0))))) in
  snd (nth 1 log ([], (0, 0, 0, 0, 0, 0))) =
  snd (nth 0 log ([], (0, 0, 0, 0, 0, 0))).
Proof.
  cbv zeta.
  pose proof (commit_function_of_frame false line_C (fun _ => 0) 1700) as H.
  cbv zeta in H.
  apply H.
  - vm_compute. right; left. reflexivity.
  - vm_compute. left. reflexivity.
  - vm_compute. reflexivity.
Defined.

(** ** Between commits *)

Section Between.

Variable TWO_LEDS : bool.
Variable din : nat -> bool.

Lemma commits_step (s : state) :
  (commits (trace (snd s)) <=
   commits (trace (snd (loop_step TWO_LEDS din s))))%nat.
Proof.
  destruct s as [pc m].
  assert (Hcases : pc = at_update_now \/ pc <> at_update_now)
    by (destruct pc; auto; right; discriminate).
  destruct Hcases as [->|Hn].
  - cbn [loop_step snd]. rewrite update_now_trace. cbn [commits]. lia.
  - destruct (commit_log_step TWO_LEDS din (pc, m) Hn) as [_ ->]. lia.
Qed.

Lemma commits_run (n : nat) (s : state) :
  (commits (trace (snd s)) <=
   commits (trace (snd (run TWO_LEDS din n s))))%nat.
Proof.
  revert s; induction n as [|n IH]; intro s; cbn [run]; [lia|].
  specialize (IH (loop_step TWO_LEDS din s)).
  pose proof (commits_step s). lia.
Qed.

(** As long as nothing is committed the data space keeps its content. *)
Lemma mem_until_commit (n : nat) (s : state) :
  commits (trace (snd (run TWO_LEDS din n s))) = commits (trace (snd s)) ->
  mem (snd (run TWO_LEDS din n s)) = mem (snd s).
Proof.
  induction n as [|n IH]; [reflexivity|].
  rewrite run_S_r. intro H.
  pose proof (commits_run n s) as H1.
  pose proof (commits_step (run TWO_LEDS din n s)) as H2.
  destruct (run TWO_LEDS din n s) as [pc m] eqn:E.
  assert (Hcases : pc = at_update_now \/ pc <> at_update_now)
    by (destruct pc; auto; right; discriminate).
  destruct Hcases as [->|Hn].
  - exfalso. cbn [loop_step snd] in H. rewrite update_now_trace in H.
    cbn [commits snd] in *. lia.
  - rewrite (mem_step TWO_LEDS din (pc, m) Hn). apply IH.
    cbn [snd] in *. lia.
Qed.

End Between.

Section ShortFrame.

Variable din : nat -> bool.

(** With two LEDs, from capture_start and until the next commit, the
    registers hold what they held there with this frame's bits shifted
    in. *)
Lemma shifted_until_commit (m : machine) (n : nat) :
  frame_samples (trace m) = [] ->
  commits (trace (snd (run true din n (at_READ_BIT_1 0, m)))) =
    commits (trace m) ->
  shifted (regs m) (run true din n (at_READ_BIT_1 0, m)).
Proof.
  intro Hfs. induction n as [|n IH].
  - intros _ r _. cbn [run snd]. rewrite Hfs. reflexivity.
  - rewrite run_S_r. intro H.
    pose proof (commits_run true din n (at_READ_BIT_1 0, m)) as H1.
    pose proof (commits_step true din (run true din n (at_READ_BIT_1 0, m)))
      as H2.
    destruct (run true din n (at_READ_BIT_1 0, m)) as [pc mn] eqn:E.
    assert (Hcases : pc = at_update_now \/ pc <> at_update_now)
      by (destruct pc; auto; right; discriminate).
    destruct Hcases as [->|Hn].
    + exfalso. cbn [loop_step snd] in H. rewrite update_now_trace in H.
      cbn [commits snd] in *. lia.
    + apply shifted_step; auto. apply IH. cbn [snd] in *. lia.
Qed.

End ShortFrame.

(** The complement COM computes is the bitwise one. *)
Lemma com_complement (v : Z) : 0 <= v < 256 -> 255 - v = Z.lxor v 255.
Proof.
  intro H.
  assert (E : 255 - v = Z.lxor v 255 <->
              Z.eqb (255 - v) (Z.lxor v 255) = true) by (symmetry; apply Z.eqb_eq).
  apply E. clear E.
  assert (Hn : (Z.to_nat v < 256)%nat) by lia.
  rewrite <- (Z2Nat.id v) by lia.
  generalize dependent (Z.to_nat v). clear. intros n Hn.
  do 256 (destruct n as [|n]; [reflexivity|]). lia.
Qed.

(** C1.  One LED.  From capture_start, on a line that carries the 24
    bits green 0x00, red 0xFF, blue 0x80, then any relayed bits, then an
    idle gap of 768 cycles, the loop reaches the commit and comes back
    to capture with exactly one more commit, which stored
    255 - 0xFF in OCR1A (red), 255 - 0x00 in OCR1B (green) and
    255 - 0x80 in OCR2A (blue): the first byte captured went to green,
    the second to red, the third to blue, each complemented. *)
Theorem scenario_A_commit
  (din : nat -> bool) (m : machine) (s : nat) (relayed : list bool) :
  frame_samples (trace m) = [] ->
  (clk m <= s)%nat -> low din (clk m) s ->
  pulses din s (frame_A ++ relayed) ->
  low din (s + T_bit * (24 + length relayed))
          (s + T_bit * (24 + length relayed) + 768) ->
  exists n m',
    run false din n (at_READ_BIT_1 0, m) = (at_READ_BIT_1 0, m') /\
    commits (trace m') = S (commits (trace m)) /\
    mem m' OCR1A = 255 - 0xFF /\
    mem m' OCR1B = 255 - 0x00 /\
    mem m' OCR2A = 255 - 0x80 /\
    (255 - 0xFF = Z.lxor 0xFF 255 /\ 255 - 0x00 = Z.lxor 0x00 255 /\
     255 - 0x80 = Z.lxor 0x80 255).
Proof.
  intros Hfs Hc HL HP Hidle.
  destruct (frame_commit false din m s frame_A relayed Hfs Hc HL eq_refl HP Hidle)
    as (n & m3 & R & _ & C & Hregs).
  exists (S n), (snd (update_now false m3)).
  rewrite run_S_r, R. cbn [loop_step]. split; [reflexivity|].
  rewrite update_now_trace. cbn [commits]. split; [congruence|].
  pose proof (update_now_mem false m3) as Hm. cbv zeta in Hm.
  destruct Hm as (M1 & M2 & M3 & _).
  rewrite M1, M2, M3, !update_now_regs.
  rewrite (Hregs r16), (Hregs r17), (Hregs r18) by (cbn; tauto).
  repeat split.
Qed.

Lemma scenario_A_commit_witness :
  exists n m',
    run false line_A n (at_READ_BIT_1 0, blank 1590) = (at_READ_BIT_1 0, m') /\
    mem m' OCR1A = 0 /\ mem m' OCR1B = 255 /\ mem m' OCR2A = 127.
Proof.
  destruct (scenario_A_commit line_A (blank 1590) 1600 relayed_A)
    as (n & m' & R & _ & M1 & M2 & M3 & _).
  - reflexivity.
  - cbn. lia.
  - apply lowb_low. vm_compute. reflexivity.
  - apply pulsesb_pulses. vm_compute. reflexivity.
  - apply lowb_low. vm_compute. reflexivity.
  - exists n, m'. repeat split; assumption.
Defined.

(** C8, amended.  Two LEDs.  From capture_start, when the line carries
    only 24 bits and then stays low until cycle [T], however late:
    capture has shifted the 24 bits into r16, r17, r18, eight each, and
    waits at the READ_BIT number 24 for the 25th bit; for as long as
    the line stays low nothing is committed, the data space (the
    compare registers of both pixels) is as it was, and r19, r20, r21
    hold what they held before the frame, whatever that was. *)
Theorem short_frame_two_leds
  (din : nat -> bool) (m : machine) (s T : nat) (bits : list bool) :
  frame_samples (trace m) = [] ->
  (clk m <= s)%nat -> low din (clk m) s ->
  length bits = 24%nat -> pulses din s bits ->
  low din (s + T_bit * 24) T ->
  exists n0 m1,
    run true din n0 (at_READ_BIT_1 0, m) = (at_READ_BIT_1 24, m1) /\
    (clk m1 <= s + T_bit * 24)%nat /\
    regs m1 r16 = byte_of_bits (firstn 8 bits) /\
    regs m1 r17 = byte_of_bits (firstn 8 (skipn 8 bits)) /\
    regs m1 r18 = byte_of_bits (skipn 16 bits) /\
    forall n,
      let sn := run true din (n0 + n) (at_READ_BIT_1 0, m) in
      (clk (snd sn) <= T)%nat ->
      fst sn = at_READ_BIT_1 24 /\
      commits (trace (snd sn)) = commits (trace m) /\
      mem (snd sn) = mem m /\
      regs (snd sn) = regs m1 /\
      regs (snd sn) r19 = regs m r19 /\
      regs (snd sn) r20 = regs m r20 /\
      regs (snd sn) r21 = regs m r21.
Proof.
  intros Hfs Hc HL Hlen HP Hidle.
  destruct (capture_pulses true din bits 0 s m)
    as (n0 & m1 & R1 & C1 & T1 & L1); try assumption.
  { intros ->. discriminate. }
  { rewrite Hlen. cbn. lia. }
  rewrite Hlen in *. cbn [Nat.add Nat.sub skipn] in R1, T1.
  change (after_bit true 23) with (at_READ_BIT_1 24) in R1.
  assert (Hfs1 : frame_samples (trace m1) = combine (capture_start true) bits).
  { rewrite T1, frame_samples_sampled, Hfs. reflexivity. }
  assert (Hc1 : commits (trace m1) = commits (trace m)).
  { rewrite T1. apply (commits_sampled (capture_start true) bits (trace m)). }
  assert (Hsh : shifted (regs m) (at_READ_BIT_1 24, m1)).
  { rewrite <- R1. apply shifted_until_commit; [exact Hfs|].
    rewrite R1. exact Hc1. }
  assert (Hregs :
    regs m1 r16 = byte_of_bits (firstn 8 bits) /\
    regs m1 r17 = byte_of_bits (firstn 8 (skipn 8 bits)) /\
    regs m1 r18 = byte_of_bits (skipn 16 bits) /\
    regs m1 r19 = regs m r19 /\ regs m1 r20 = regs m r20 /\
    regs m1 r21 = regs m r21).
  { pose proof (Hsh r16 ltac:(discriminate)) as H16.
    pose proof (Hsh r17 ltac:(discriminate)) as H17.
    pose proof (Hsh r18 ltac:(discriminate)) as H18.
    pose proof (Hsh r19 ltac:(discriminate)) as H19.
    pose proof (Hsh r20 ltac:(discriminate)) as H20.
    pose proof (Hsh r21 ltac:(discriminate)) as H21.
    cbn [snd] in *. rewrite Hfs1 in *.
    clear - Hlen H16 H17 H18 H19 H20 H21.
    do 24 (destruct bits as [|? bits]; [discriminate|]).
    destruct bits; [|discriminate].
    cbn [combine capture_start READ_BYTE app bits_into filter map
         fst snd reg_eqb] in H16, H17, H18, H19, H20, H21.
    rewrite H16, H17, H18, H19, H20, H21.
    cbn [firstn skipn].
    repeat split; try (apply shift_all_byte; reflexivity); reflexivity. }
  destruct Hregs as (G16 & G17 & G18 & G19 & G20 & G21).
  exists n0, m1. split; [exact R1|]. split; [unfold T_bit in *; lia|].
  split; [exact G16|]. split; [exact G17|]. split; [exact G18|].
  intros n. cbv zeta. rewrite run_add, R1. intro Hcn.
  destruct (READ_BIT_idle true din 24 T m1) with (n := n)
    as (Hpc & Htr & Hrg & Hme).
  { cbn. lia. }
  { eapply low_join; [exact L1|exact Hidle]. }
  { exact Hcn. }
  split; [exact Hpc|]. rewrite Htr, Hrg, Hme.
  split; [exact Hc1|]. split.
  { pose proof (mem_until_commit true din n0 (at_READ_BIT_1 0, m)) as Hmm.
    rewrite R1 in Hmm. apply Hmm. exact Hc1. }
  repeat split; assumption.
Qed.

Lemma short_frame_two_leds_witness :
  exists n0 m1,
    run true (wave 100 frame_A) n0 (at_READ_BIT_1 0, blank 90)
    = (at_READ_BIT_1 24, m1) /\
    regs m1 r17 = byte_of_bits (firstn 8 (skipn 8 frame_A)).
Proof.
  destruct (short_frame_two_leds (wave 100 frame_A) (blank 90) 100 4000 frame_A)
    as (n0 & m1 & R & _ & _ & H17 & _).
  - reflexivity.
  - cbn. lia.
  - apply lowb_low. vm_compute. reflexivity.
  - reflexivity.
  - apply pulsesb_pulses. vm_compute. reflexivity.
  - apply lowb_low. vm_compute. reflexivity.
  - exists n0, m1. split; assumption.
Defined.

(** C8 as stated fails.  Two LEDs, every register 255 at power-on.  A
    full frame (second pixel 0x10, 0x20, 0x30) is committed; then a
    frame of only 24 bits (0x00, 0xFF, 0x80) is followed by an idle gap
    longer than the 256 checks.  At cycle 4902, deep in that gap,
    capture still waits for the 25th bit: the short frame is not
    committed (OCR1A still holds the previous red) and r19, r20, r21
    hold 239, 223, 207, the complements left by the previous commit,
    not 255.  When 24 more bits, all ones, arrive and the line goes
    idle, they are committed as the second pixel: OCR2B, OCR0B and
    OCR0A get 0, fully on. *)
Lemma short_frame_second_pixel_not_off :
  let in_gap := run true line_B 1259 (boot (fun _ => 255)) in
  let later := run true line_B 1678 (boot (fun _ => 255)) in
  (fst in_gap = at_READ_BIT_1 24 /\ clk (snd in_gap) = 4902%nat /\
   lowb line_B (3600 + T_bit * 24) 4902 = true /\
   commits (trace (snd in_gap)) = 1%nat /\
   map (regs (snd in_gap)) [r16; r17; r18; r19; r20; r21] =
     [0; 255; 128; 239; 223; 207] /\
   map (mem (snd in_gap)) [OCR1A; OCR1B; OCR2A; OCR2B; OCR0B; OCR0A] =
     [253; 254; 252; 223; 239; 207]) /\
  (commits (trace (snd later)) = 2%nat /\
   map (mem (snd later)) [OCR1A; OCR1B; OCR2A; OCR2B; OCR0B; OCR0A] =
     [0; 255; 127; 0; 0; 0]).
Proof. vm_compute. repeat split. Qed.

(** * Further properties of the loop *)

(** ** Power-on synchronisation: wait_reset and r_chk *)

Section Sync.

Variable TWO_LEDS : bool.
Variable din : nat -> bool.

Lemma wait_reset_eq (m : machine) :
  loop_step TWO_LEDS din (at_wait_reset, m) =
  (at_r_chk, tick 1 (set_reg r22 250 m)).
Proof. reflexivity. Qed.

(** One check of r_chk that sees the line low, with [v] in r22. *)
Lemma r_chk_low (m : machine) (v : Z) :
  din (clk m) = false -> regs m r22 = v -> 1 <= v <= 250 ->
  exists m',
    loop_step TWO_LEDS din (at_r_chk, m) =
      ((if Z.eqb v 1 then at_READ_BIT_1 0 else at_r_chk), m') /\
    clk m' = (clk m + (if Z.eqb v 1 then 5 else 6))%nat /\
    regs m' r22 = v - 1 /\
    (forall r, r <> r22 -> regs m' r = regs m r) /\
    mem m' = mem m /\ dout m' = dout m /\ trace m' = trace m.
Proof.
  intros Hd Hv Hr. destruct m as [rg me o c tr]. cbn [clk regs] in *.
  cbn [loop_step]. unfold r_chk. cbn [clk]. rewrite Hd.
  exec. rewrite Hv.
  assert (E : (v - 1) mod 256 = v - 1) by (apply Z.mod_small; lia).
  rewrite E.
  destruct (Z.eqb_spec v 1) as [->|Hne].
  - cbn [Z.sub Z.eqb Z.pos_sub]. eexists. split; [reflexivity|].
    cbn [clk regs mem dout trace]. repeat split; try lia.
    intros r Hr'. destruct r; try reflexivity. contradiction.
  - destruct (Z.eqb_spec (v - 1) 0) as [E0|_]; [lia|].
    eexists. split; [reflexivity|].
    cbn [clk regs mem dout trace]. repeat split; try lia.
    intros r Hr'. destruct r; try reflexivity. contradiction.
Qed.

(** [j + 1] checks left and the line low at each of them. *)
Lemma r_chk_run (j : nat) :
  forall m : machine,
    regs m r22 = Z.of_nat (S j) -> (j < 250)%nat ->
    (forall i, (i <= j)%nat -> din (clk m + 6 * i) = false) ->
    exists m',
      run TWO_LEDS din (S j) (at_r_chk, m) = (at_READ_BIT_1 0, m') /\
      clk m' = (clk m + 6 * j + 5)%nat /\
      regs m' r22 = 0 /\
      (forall r, r <> r22 -> regs m' r = regs m r) /\
      mem m' = mem m /\ dout m' = dout m /\ trace m' = trace m.
Proof.
  induction j as [|j IH]; intros m Hv Hj HL.
  - assert (Hd : din (clk m) = false).
    { rewrite <- (HL O) by lia. f_equal. lia. }
    destruct (r_chk_low m 1 Hd Hv ltac:(lia))
      as (m' & R & C & V & G & M & D & T).
    cbn [Z.eqb Pos.eqb] in R, C.
    exists m'. cbn [run]. rewrite R. repeat split; auto. lia.
  - assert (Hd : din (clk m) = false).
    { rewrite <- (HL O) by lia. f_equal. lia. }
    destruct (r_chk_low m (Z.of_nat (S (S j))) Hd Hv ltac:(lia))
      as (m1 & R & C & V & G & M & D & T).
    destruct (Z.eqb_spec (Z.of_nat (S (S j))) 1) as [E|_]; [lia|].
    destruct (IH m1) as (m' & R' & C' & V' & G' & M' & D' & T').
    + rewrite V. lia.
    + lia.
    + intros i Hi. rewrite C. rewrite <- (HL (S i)) by lia. f_equal. lia.
    + exists m'. cbn [run] in *. rewrite R. repeat split.
      * exact R'.
      * lia.
      * exact V'.
      * intros r Hr. rewrite (G' r Hr). apply G, Hr.
      * congruence.
      * congruence.
      * congruence.
Qed.

(** While r_chk counts, r22 tells how many of the latest checks, six
    cycles apart, saw the line low. *)
Definition counting (s : state) : Prop :=
  match fst s with
  | at_r_chk =>
      exists j : nat,
        (j < 250)%nat /\ regs (snd s) r22 = 250 - Z.of_nat j /\
        forall i, (i < j)%nat -> din (clk (snd s) - 6 * S i) = false
  | _ => True
  end.

Lemma counting_step (s : state) :
  counting s -> counting (loop_step TWO_LEDS din s).
Proof.
  destruct s as [pc m]. destruct pc; intro H.
  - exact I.
  - (* wait_reset: the count starts *)
    rewrite wait_reset_eq. exists O. cbn. repeat split; try lia.
  - (* r_chk *)
    destruct H as (j & Hj & Hv & HL). cbn [snd] in *.
    destruct (din (clk m)) eqn:Hd.
    + destruct m as [rg me o c tr]. cbn [clk] in Hd.
      exec. rewrite Hd. exact I.
    + destruct (r_chk_low m (250 - Z.of_nat j) Hd Hv ltac:(lia))
        as (m' & R & C & V & _).
      rewrite R. destruct (Z.eqb_spec (250 - Z.of_nat j) 1) as [E|Hne];
        [exact I|].
      exists (S j). cbn [fst snd]. repeat split; [lia|rewrite V; lia|].
      intros i Hi. rewrite C. destruct i as [|i].
      * replace (clk m + 6 - 6 * 1)%nat with (clk m) by lia. exact Hd.
      * replace (clk m + 6 - 6 * S (S i))%nat
          with (clk m - 6 * S i)%nat by lia.
        apply HL. lia.
  - (* READ_BIT 1: not at r_chk afterwards *)
    cbn [loop_step]. unfold READ_BIT_1, relay_entry.
    destruct (nth_error (capture_start TWO_LEDS) k);
      destruct (din (clk m)); exact I.
  - cbn [loop_step]. unfold READ_BIT_2. destruct (din (clk m)); [exact I|].
    unfold counting. cbn [fst].
    destruct (Nat.ltb (S k) (length (capture_start TWO_LEDS))); exact I.
  - cbn [loop_step]. unfold relay_entry. destruct (din (clk m)); [exact I|].
    destruct (Nat.ltb (S i) 256); exact I.
  - exact I.
  - exact I.
Qed.

Lemma counting_run (n : nat) (s : state) :
  counting s -> counting (run TWO_LEDS din n s).
Proof.
  revert s; induction n as [|n IH]; intros s H; cbn [run]; [exact H|].
  apply IH, counting_step, H.
Qed.

End Sync.

(** The synchronisation on an idle line, step by step. *)
Lemma sync_idle
  (TWO_LEDS : bool) (din : nat -> bool) (power_on : reg -> Z) :
  let t0 := if TWO_LEDS then 0%nat else 3%nat in
  low din t0 (t0 + 1500) ->
  exists m',
    run TWO_LEDS din 252 (boot power_on) = (at_READ_BIT_1 0, m') /\
    clk m' = (t0 + 1500)%nat /\
    trace m' = [] /\ dout m' = false /\
    mem m' = mem (setup power_on) /\
    regs m' r22 = 0 /\
    regs m' r16 = power_on r16 /\ regs m' r17 = power_on r17 /\
    regs m' r18 = power_on r18 /\
    regs m' r19 = (if TWO_LEDS then power_on r19 else 255) /\
    regs m' r20 = (if TWO_LEDS then power_on r20 else 255) /\
    regs m' r21 = (if TWO_LEDS then power_on r21 else 255).
Proof.
  cbv zeta. intro HL.
  set (m0 := snd (loop_step TWO_LEDS din (boot power_on))).
  assert (H0 : loop_step TWO_LEDS din (boot power_on) = (at_wait_reset, m0))
    by reflexivity.
  assert (Hc0 : clk m0 = if TWO_LEDS then 0%nat else 3%nat)
    by (subst m0; destruct TWO_LEDS; reflexivity).
  destruct (r_chk_run TWO_LEDS din 249 (tick 1 (set_reg r22 250 m0)))
    as (m' & R & C & V & G & M & D & T).
  - reflexivity.
  - lia.
  - intros i Hi. apply HL. cbn [clk tick set_reg]. rewrite Hc0. lia.
  - exists m'.
    change 252%nat with (S (S 250)). cbn [run]. rewrite H0, wait_reset_eq.
    split; [exact R|]. cbn [clk tick set_reg] in C. rewrite Hc0 in C.
    split; [lia|].
    rewrite T, D, M, V.
    rewrite (G r16), (G r17), (G r18), (G r19), (G r20), (G r21)
      by discriminate.
    subst m0. destruct TWO_LEDS; repeat split.
Qed.

(** On a line that is idle at power-on the synchronisation takes 250
    checks: capture_start is reached after 1500 cycles (1503 with one
    LED, for the three ldi of start_frame), with nothing committed or
    traced, r22 at 0 and r16..r21 as start_frame left them. *)
Theorem sync_on_idle_line
  (TWO_LEDS : bool) (din : nat -> bool) (power_on : reg -> Z) :
  let t0 := if TWO_LEDS then 0%nat else 3%nat in
  low din t0 (t0 + 1500) ->
  exists m',
    run TWO_LEDS din 252 (boot power_on) = (at_READ_BIT_1 0, m') /\
    clk m' = (t0 + 1500)%nat /\
    trace m' = [] /\ dout m' = false /\
    mem m' = mem (setup power_on) /\
    regs m' r22 = 0 /\
    regs m' r16 = power_on r16 /\ regs m' r17 = power_on r17 /\
    regs m' r18 = power_on r18 /\
    regs m' r19 = (if TWO_LEDS then power_on r19 else 255) /\
    regs m' r20 = (if TWO_LEDS then power_on r20 else 255) /\
    regs m' r21 = (if TWO_LEDS then power_on r21 else 255).
Proof. exact (sync_idle TWO_LEDS din power_on). Qed.

Lemma sync_on_idle_line_witness :
  exists m',
    run true (wave 1600 frame_48) 252 (boot (fun _ => 7))
    = (at_READ_BIT_1 0, m') /\ clk m' = 1500%nat.
Proof.
  destruct (sync_on_idle_line true (wave 1600 frame_48) (fun _ => 7))
    as (m' & R & C & _).
  - apply lowb_low. vm_compute. reflexivity.
  - exists m'. split; assumption.
Defined.

(** The first capture begins only when the line was seen low at 250
    checks in a row, six cycles apart: the transition that enters
    capture_start before any commit, from another label, is made by
    r_chk, and the line was low at its check and at the 249 before. *)
Theorem sync_needs_250_low_checks
  (TWO_LEDS : bool) (din : nat -> bool) (power_on : reg -> Z) (n : nat) :
  let s := run TWO_LEDS din n (boot power_on) in
  let s' := run TWO_LEDS din (S n) (boot power_on) in
  fst s' = at_READ_BIT_1 0 -> fst s <> at_READ_BIT_1 0 ->
  commits (trace (snd s')) = O ->
  fst s = at_r_chk /\
  forall i, (i < 250)%nat -> din (clk (snd s) - 6 * i)%nat = false.
Proof.
  cbv zeta. rewrite run_S_r.
  pose proof (counting_run TWO_LEDS din n _
                (I : counting din (boot power_on))) as Hcnt.
  destruct (run TWO_LEDS din n (boot power_on)) as [pc m].
  cbn [fst snd] in *. intros H1 H2 H3.
  destruct pc.
  - discriminate H1.
  - discriminate H1.
  - split; [reflexivity|].
    destruct Hcnt as (j & Hj & Hv & HL). cbn [snd] in *.
    destruct (din (clk m)) eqn:Hd.
    + exfalso. cbn [loop_step] in H1. unfold r_chk in H1.
      rewrite Hd in H1. discriminate H1.
    + destruct (r_chk_low TWO_LEDS din m (250 - Z.of_nat j) Hd Hv ltac:(lia))
        as (m' & R & _).
      rewrite R in H1. cbn [fst] in H1.
      destruct (Z.eqb_spec (250 - Z.of_nat j) 1) as [E|_]; [|discriminate H1].
      intros i Hi. destruct i as [|i].
      * replace (clk m - 6 * 0)%nat with (clk m) by lia. exact Hd.
      * apply HL. lia.
  - exfalso. cbn [loop_step] in H1. unfold READ_BIT_1, relay_entry in H1.
    destruct (nth_error (capture_start TWO_LEDS) k);
      destruct (din (clk m)); cbn [fst] in H1;
      try discriminate H1.
    injection H1 as ->. apply H2. reflexivity.
  - exfalso. cbn [loop_step] in H1. unfold READ_BIT_2 in H1.
    destruct (din (clk m)); cbn [fst] in H1; [discriminate H1|].
    destruct (Nat.ltb (S k) (length (capture_start TWO_LEDS)));
      discriminate H1.
  - exfalso. cbn [loop_step] in H1. unfold relay_entry in H1.
    destruct (din (clk m)); [discriminate H1|].
    destruct (Nat.ltb (S i) 256); discriminate H1.
  - discriminate H1.
  - exfalso. cbn [loop_step snd] in H3. rewrite update_now_trace in H3.
    discriminate H3.
Qed.

Lemma sync_needs_250_low_checks_witness :
  let s := run true (wave 10 [true]) 257 (boot (fun _ => 0)) in
  fst s = at_r_chk /\ wave 10 [true] (clk (snd s) - 6 * 249) = false.
Proof.
  cbv zeta.
  destruct (sync_needs_250_low_checks true (wave 10 [true]) (fun _ => 0) 257)
    as [H1 H2].
  - vm_compute. reflexivity.
  - vm_compute. discriminate.
  - vm_compute. reflexivity.
  - split; [exact H1|]. apply H2. lia.
Defined.

(** ** The sampling window of READ_BIT *)

(** [m'] differs from [m] by the clock only. *)
Definition only_time (m m' : machine) : Prop :=
  regs m' = regs m /\ mem m' = mem m /\ dout m' = dout m /\
  trace m' = trace m.

Lemma only_time_refl (m : machine) : only_time m m.
Proof. repeat split. Qed.

Lemma only_time_trans (m1 m2 m3 : machine) :
  only_time m1 m2 -> only_time m2 m3 -> only_time m1 m3.
Proof.
  intros (A1 & A2 & A3 & A4) (B1 & B2 & B3 & B4).
  repeat split; congruence.
Qed.

Section Window.

Variable TWO_LEDS : bool.
Variable din : nat -> bool.

Lemma READ_BIT_1_poll (k : nat) (r : reg) (m : machine) :
  nth_error (capture_start TWO_LEDS) k = Some r ->
  din (clk m) = false ->
  exists m', loop_step TWO_LEDS din (at_READ_BIT_1 k, m) = (at_READ_BIT_1 k, m')
             /\ clk m' = (clk m + 3)%nat /\ only_time m m'.
Proof.
  intros E H. cbn [loop_step]. unfold READ_BIT_1. rewrite E, H.
  eexists; split; [reflexivity|]. destruct m; exec.
  split; [lia|repeat split].
Qed.

Lemma READ_BIT_1_sample (k : nat) (r : reg) (m : machine) :
  nth_error (capture_start TWO_LEDS) k = Some r ->
  din (clk m) = true ->
  exists m',
    loop_step TWO_LEDS din (at_READ_BIT_1 k, m) = (at_READ_BIT_2 k, m') /\
    clk m' = (clk m + 9)%nat /\
    trace m' = EvSample r (din (clk m + 7)) :: trace m /\
    regs m' r = shift_in (regs m r) (din (clk m + 7)) /\
    (forall r', r' <> r -> regs m' r' = regs m r') /\
    mem m' = mem m /\ dout m' = dout m.
Proof.
  intros E H. cbn [loop_step]. unfold READ_BIT_1. rewrite E, H.
  eexists; split; [reflexivity|]. destruct m as [rg me o c tr].
  unfold shift_in. cbn [clk regs mem dout trace].
  destruct r; exec;
    replace (c + 2 + 1 + 1 + 1 + 1 + 1)%nat with (c + 7)%nat by lia;
    destruct (din (c + 7)); exec;
    (repeat split; try reflexivity; try lia;
     intros r' Hr'; destruct r'; try reflexivity; contradiction).
Qed.

Lemma READ_BIT_2_poll (k : nat) (m : machine) :
  din (clk m) = true ->
  exists m', loop_step TWO_LEDS din (at_READ_BIT_2 k, m) = (at_READ_BIT_2 k, m')
             /\ clk m' = (clk m + 3)%nat /\ only_time m m'.
Proof.
  intros H. cbn [loop_step]. unfold READ_BIT_2. rewrite H.
  eexists; split; [reflexivity|]. destruct m; exec.
  split; [lia|repeat split].
Qed.

Lemma READ_BIT_2_exit (k : nat) (m : machine) :
  din (clk m) = false ->
  exists m', loop_step TWO_LEDS din (at_READ_BIT_2 k, m)
             = (after_bit TWO_LEDS k, m')
             /\ clk m' = (clk m + 2)%nat /\ only_time m m'.
Proof.
  intros H. cbn [loop_step]. unfold READ_BIT_2, after_bit. rewrite H.
  eexists; split; [reflexivity|]. destruct m; exec.
  split; [lia|repeat split].
Qed.

Lemma wait_rise_only_time (k : nat) (r : reg) (s d : nat) (m : machine) :
  nth_error (capture_start TWO_LEDS) k = Some r ->
  (clk m <= s + 2)%nat -> (s <= clk m + 3 * d)%nat ->
  low din (clk m) s ->
  exists n m', run TWO_LEDS din n (at_READ_BIT_1 k, m) = (at_READ_BIT_1 k, m')
               /\ (s <= clk m' <= s + 2)%nat /\ (clk m <= clk m')%nat
               /\ only_time m m'.
Proof.
  intros E. revert m. induction d as [|d IH]; intros m H1 H2 HL.
  - exists O, m. cbn. repeat split; lia.
  - destruct (Nat.le_gt_cases s (clk m)) as [Hge|Hlt].
    + exists O, m. cbn. repeat split; lia.
    + destruct (READ_BIT_1_poll k r m E) as (m1 & Hs & Hc & Ho).
      { apply HL. lia. }
      destruct (IH m1) as (n & m' & Hr & Hc' & Hm & Ho').
      * lia.
      * lia.
      * eapply low_weaken; [exact HL|lia|lia].
      * exists (S n), m'. cbn [run]. rewrite Hs.
        split; [exact Hr|]. split; [lia|]. split; [lia|].
        eapply only_time_trans; eassumption.
Qed.

Lemma wait_fall_only_time (k : nat) (f d : nat) (m : machine) :
  (clk m <= f + 2)%nat -> (f <= clk m + 3 * d)%nat ->
  (forall t, (clk m <= t < f)%nat -> din t = true) ->
  low din f (f + 3) ->
  exists n m', run TWO_LEDS din n (at_READ_BIT_2 k, m)
               = (after_bit TWO_LEDS k, m')
               /\ (f + 2 <= clk m' <= f + 4)%nat /\ (clk m + 2 <= clk m')%nat
               /\ only_time m m'.
Proof.
  revert m. induction d as [|d IH]; intros m H1 H2 HH HL.
  - destruct (READ_BIT_2_exit k m) as (m1 & Hs & Hc & Ho).
    { apply HL. lia. }
    exists 1%nat, m1. cbn [run]. rewrite Hs. repeat split; try lia; apply Ho.
  - destruct (Nat.le_gt_cases f (clk m)) as [Hge|Hlt].
    + destruct (READ_BIT_2_exit k m) as (m1 & Hs & Hc & Ho).
      { apply HL. lia. }
      exists 1%nat, m1. cbn [run]. rewrite Hs.
      repeat split; try lia; apply Ho.
    + destruct (READ_BIT_2_poll k m) as (m1 & Hs & Hc & Ho).
      { apply HH. lia. }
      destruct (IH m1) as (n & m' & Hr & Hc' & Hm & Ho').
      * lia.
      * lia.
      * intros t Ht1. apply HH. lia.
      * exact HL.
      * exists (S n), m'. cbn [run]. rewrite Hs.
        split; [exact Hr|]. split; [lia|]. split; [lia|].
        eapply only_time_trans; eassumption.
Qed.

End Window.

(** One READ_BIT on a pulse that rises at cycle [s], stays high for [h]
    cycles (at least 3, so that the 3-cycle poll cannot miss it) and is
    then low until [s + P].  The edge is seen at a cycle [tau], 0 to 2
    cycles late, and the line is sampled 7 cycles after that, 7 to 9
    cycles after the edge: the bit shifted into the register is 1 if the
    line is still high then, 0 otherwise.  So every pulse of at most 7
    cycles reads as 0 and every pulse of at least 10 cycles reads as 1;
    no other register, no compare register and not the output pin
    change.  READ_BIT returns 11 cycles after [tau] for a 0, and 2 to 4
    cycles after the line has fallen for a 1. *)
Theorem READ_BIT_window
  (TWO_LEDS : bool) (din : nat -> bool) (k : nat) (r : reg) (m : machine)
  (s h P : nat) :
  nth_error (capture_start TWO_LEDS) k = Some r ->
  (clk m <= s)%nat -> low din (clk m) s ->
  (3 <= h)%nat -> (h + 3 <= P)%nat -> (12 <= P)%nat ->
  (forall t, (s <= t < s + h)%nat -> din t = true) ->
  low din (s + h) (s + P) ->
  exists (n : nat) (m' : machine) (tau : nat),
    run TWO_LEDS din n (at_READ_BIT_1 k, m) = (after_bit TWO_LEDS k, m') /\
    (s <= tau <= s + 2)%nat /\
    let b := Nat.ltb (tau + 7) (s + h) in
    trace m' = EvSample r b :: trace m /\
    regs m' r = shift_in (regs m r) b /\
    (forall r', r' <> r -> regs m' r' = regs m r') /\
    mem m' = mem m /\ dout m' = dout m /\
    ((h <= 7)%nat -> b = false) /\
    ((10 <= h)%nat -> b = true) /\
    (b = false -> clk m' = (tau + 11)%nat) /\
    (b = true -> (s + h + 2 <= clk m' <= s + h + 4)%nat).
Proof.
  intros E Hc HL H3 HP HP12 HH HLo.
  destruct (wait_rise_only_time TWO_LEDS din k r s (s - clk m) m E)
    as (n1 & m1 & R1 & C1 & _ & (G1 & M1 & D1 & T1)); [lia|lia|exact HL|].
  destruct (READ_BIT_1_sample TWO_LEDS din k r m1 E)
    as (m2 & R2 & C2 & T2 & V2 & G2 & M2 & D2).
  { apply HH. lia. }
  assert (Hb : din (clk m1 + 7)%nat = Nat.ltb (clk m1 + 7) (s + h)).
  { destruct (Nat.ltb_spec (clk m1 + 7) (s + h)).
    - apply HH. lia.
    - apply HLo. lia. }
  rewrite Hb in T2, V2.
  destruct (Nat.ltb (clk m1 + 7) (s + h)) eqn:Eb.
  - (* still high at the sample: a 1 *)
    apply Nat.ltb_lt in Eb.
    destruct (wait_fall_only_time TWO_LEDS din k (s + h) h m2)
      as (n3 & m3 & R3 & C3 & _ & (G3 & M3 & D3 & T3)).
    + lia.
    + lia.
    + intros t Ht. apply HH. lia.
    + eapply low_weaken; [exact HLo|lia|lia].
    + exists (n1 + S n3)%nat, m3, (clk m1).
      rewrite run_add, R1. cbn [run]. rewrite R2.
      split; [exact R3|]. split; [lia|]. cbv zeta.
      assert (Eb' : Nat.ltb (clk m1 + 7) (s + h) = true)
        by (apply Nat.ltb_lt; exact Eb).
      rewrite Eb'. rewrite G3, M3, D3, T3.
      repeat split;
        first [ congruence | lia
              | intros r' Hr'; rewrite (G2 r' Hr'), G1; reflexivity
              | intro; lia ].
  - (* already low at the sample: a 0 *)
    apply Nat.ltb_ge in Eb.
    destruct (READ_BIT_2_exit TWO_LEDS din k m2)
      as (m3 & R3 & C3 & (G3 & M3 & D3 & T3)).
    { apply HLo. lia. }
    exists (n1 + 2)%nat, m3, (clk m1).
    rewrite run_add, R1. cbn [run]. rewrite R2, R3.
    split; [reflexivity|]. split; [lia|]. cbv zeta.
    assert (Eb' : Nat.ltb (clk m1 + 7) (s + h) = false)
      by (apply Nat.ltb_ge; exact Eb).
    rewrite Eb'. rewrite G3, M3, D3, T3.
    repeat split;
      first [ congruence | lia
            | intros r' Hr'; rewrite (G2 r' Hr'), G1; reflexivity
            | intro; lia ].
Qed.

Lemma READ_BIT_window_witness :
  exists n m' tau,
    run false (wave 100 [true]) n (at_READ_BIT_1 0, blank 95)
    = (at_READ_BIT_1 1, m') /\
    (100 <= tau <= 102)%nat /\ regs m' r16 = shift_in 0 true.
Proof.
  destruct (READ_BIT_window false (wave 100 [true]) 0 r16 (blank 95) 100 13 20)
    as (n & m' & tau & R & Ht & H); try (cbn; lia).
  - reflexivity.
  - apply lowb_low. vm_compute. reflexivity.
  - intros t Ht. unfold wave.
    destruct (Nat.ltb_spec t 100); [lia|].
    replace ((t - 100) / T_bit)%nat with 0%nat
      by (symmetry; apply Nat.div_small; unfold T_bit; lia).
    cbn [nth_error]. rewrite Nat.mod_small by (unfold T_bit; lia).
    apply Nat.ltb_lt. cbn. lia.
  - apply lowb_low. vm_compute. reflexivity.
  - cbv zeta in H. destruct H as (_ & V & _ & _ & _ & _ & H10 & _).
    exists n, m', tau. split; [exact R|]. split; [exact Ht|].
    rewrite V, H10 by lia. reflexivity.
Defined.

(** ** A frame from capture to capture *)


Section Cycle.

Variable TWO_LEDS : bool.
Variable din : nat -> bool.

(** From capture_start and until the next commit, every register but
    r22 holds what it held there with this frame's bits shifted in. *)
Lemma shifted_from_capture (m : machine) (n : nat) :
  frame_samples (trace m) = [] ->
  commits (trace (snd (run TWO_LEDS din n (at_READ_BIT_1 0, m)))) =
    commits (trace m) ->
  shifted (regs m) (run TWO_LEDS din n (at_READ_BIT_1 0, m)).
Proof.
  intro Hfs. induction n as [|n IH].
  - intros _ r _. cbn [run snd]. rewrite Hfs. reflexivity.
  - rewrite run_S_r. intro H.
    pose proof (commits_run TWO_LEDS din n (at_READ_BIT_1 0, m)) as H1.
    pose proof (commits_step TWO_LEDS din
                  (run TWO_LEDS din n (at_READ_BIT_1 0, m))) as H2.
    assert (Hsf : fst (run TWO_LEDS din n (at_READ_BIT_1 0, m))
                  <> at_start_frame).
    { destruct n; [discriminate|apply start_frame_once]. }
    destruct (run TWO_LEDS din n (at_READ_BIT_1 0, m)) as [pc mn] eqn:E.
    assert (Hcases : pc = at_update_now \/ pc <> at_update_now)
      by (destruct pc; auto; right; discriminate).
    destruct Hcases as [->|Hn].
    + exfalso. cbn [loop_step snd] in H. rewrite update_now_trace in H.
      cbn [commits snd] in *. lia.
    + apply shifted_step;
        [ exact Hn
        | intro Hs; exfalso; apply Hsf; exact Hs
        | apply IH; cbn [snd] in *; lia ].
Qed.

(** The frame of [frame_commit], with the clock, and carried through
    the commit back to capture_start. *)
Lemma frame_cycle (m : machine) (s : nat) (bits relayed : list bool) :
  frame_samples (trace m) = [] ->
  (clk m <= s)%nat -> low din (clk m) s ->
  length bits = length (capture_start TWO_LEDS) ->
  pulses din s (bits ++ relayed) ->
  low din (s + T_bit * (length bits + length relayed))
          (s + T_bit * (length bits + length relayed) + 768) ->
  exists n m3,
    run TWO_LEDS din n (at_READ_BIT_1 0, m) = (at_update_now, m3) /\
    run TWO_LEDS din (S n) (at_READ_BIT_1 0, m) =
      (at_READ_BIT_1 0, snd (update_now TWO_LEDS m3)) /\
    (s + T_bit * (length bits + length relayed) + 762 <= clk m3
     <= s + T_bit * (length bits + length relayed) + 771)%nat /\
    frame_samples (trace m3) = combine (capture_start TWO_LEDS) bits /\
    commits (trace m3) = commits (trace m) /\
    commit_log (trace m3) = commit_log (trace m) /\
    mem m3 = mem m /\
    (forall r, r <> r22 ->
       regs m3 r =
       shift_all (regs m r)
                 (bits_into r (combine (capture_start TWO_LEDS) bits))).
Proof.
  intros Hfs Hc HL Hlen HP Hidle.
  pose proof (capture_length TWO_LEDS) as HN.
  destruct (pulses_app _ _ _ _ HP) as [HP1 HP2].
  destruct (capture_pulses TWO_LEDS din bits 0 s m)
    as (n1 & m1 & R1 & C1 & T1 & L1); try assumption.
  { intros ->. cbn in Hlen. destruct TWO_LEDS; lia. }
  { lia. }
  assert (Ha : after_bit TWO_LEDS (0 + length bits - 1) = at_relay_entry 0).
  { unfold after_bit.
    destruct (Nat.ltb_spec (S (0 + length bits - 1))
                           (length (capture_start TWO_LEDS))); [lia|reflexivity]. }
  rewrite Ha in R1. cbn [skipn] in T1.
  destruct (relay_pulses TWO_LEDS din relayed (s + T_bit * length bits)%nat m1)
    as (n2 & m2 & R2 & C2 & D2 & N2 & T2 & L2); try assumption.
  { unfold T_bit in *. destruct TWO_LEDS; lia. }
  { unfold T_bit in *. destruct TWO_LEDS; lia. }
  destruct (relay_idle TWO_LEDS din 255 0 m2) as (m3 & R3 & C3 & T3 & G3 & M3).
  { reflexivity. }
  { eapply low_join; [exact L2|].
    eapply low_weaken; [exact Hidle|unfold T_bit; lia|unfold T_bit in *; lia]. }
  assert (Hrun : run TWO_LEDS din (n1 + (n2 + 256)) (at_READ_BIT_1 0, m)
                 = (at_update_now, m3)).
  { rewrite run_add, R1, run_add, R2. exact R3. }
  assert (Hfs3 : frame_samples (trace m3) = combine (capture_start TWO_LEDS) bits).
  { rewrite T3, (relayed_frame_samples _ _ T2), T1, frame_samples_sampled, Hfs.
    reflexivity. }
  assert (Hc3 : commits (trace m3) = commits (trace m)).
  { rewrite T3, (relayed_commits _ _ T2), T1.
    apply (commits_sampled (capture_start TWO_LEDS) bits (trace m)). }
  exists (n1 + (n2 + 256))%nat, m3. split; [exact Hrun|].
  split; [rewrite run_S_r, Hrun; reflexivity|].
  assert (Hlate : (s + T_bit * (length bits + length relayed)
                   <= clk m2 + 9)%nat).
  { destruct relayed as [|b rl].
    - cbn [length] in *. unfold T_bit in *. lia.
    - specialize (N2 ltac:(discriminate)). unfold T_bit in *. lia. }
  split; [unfold T_bit in *; lia|].
  split; [exact Hfs3|]. split; [exact Hc3|]. split.
  { rewrite T3, (relayed_commit_log _ _ T2), T1.
    apply (commits_sampled (capture_start TWO_LEDS) bits (trace m)). }
  split.
  { pose proof (mem_until_commit TWO_LEDS din (n1 + (n2 + 256))
                  (at_READ_BIT_1 0, m)) as Hm.
    rewrite Hrun in Hm. apply Hm. exact Hc3. }
  intros r Hr.
  pose proof (shifted_from_capture m (n1 + (n2 + 256)) Hfs) as Hsh.
  rewrite Hrun in Hsh. specialize (Hsh Hc3 r Hr). cbn [snd] in Hsh.
  rewrite Hsh, Hfs3. reflexivity.
Qed.

End Cycle.



(** ** What the relay phase puts on the output *)

(** The writes of the data-out pin for one relayed bit [b] whose edge
    was seen at cycle [tau], newest first: high at [tau + 4]; low at
    [tau + 10] for a 0; low (again, for a 0) at [tau + 15]. *)
Definition relay_events (tau : nat) (b : bool) : list event :=
  EvOut false (tau + 15)
  :: (if b then [] else [EvOut false (tau + 10)]) ++ [EvOut true (tau + 4)].

(** [tr'] is [tr] followed by the writes for the bits [bs], whose
    pulses start at [s], [s + T_bit], ...: each edge seen 0 to 2 cycles
    late. *)
Fixpoint relay_trace (s : nat) (bs : list bool) (tr tr' : list event)
  : Prop :=
  match bs with
  | [] => tr' = tr
  | b :: bs' =>
      exists tau, (s <= tau <= s + 2)%nat /\
                  relay_trace (s + T_bit) bs' (relay_events tau b ++ tr) tr'
  end.

Section Forward.

Variable TWO_LEDS : bool.
Variable din : nat -> bool.

Lemma relay_wait_only_time (s d : nat) :
  forall (i : nat) (m : machine),
    (clk m <= s + 2)%nat -> (s <= clk m + 3 * d)%nat -> (i + d <= 255)%nat ->
    low din (clk m) s ->
    exists n i' m',
      run TWO_LEDS din n (at_relay_entry i, m) = (at_relay_entry i', m')
      /\ (s <= clk m' <= s + 2)%nat /\ only_time m m'.
Proof.
  induction d as [|d IH]; intros i m H1 H2 H3 HL.
  - exists O, i, m. cbn. repeat split; lia.
  - destruct (Nat.le_gt_cases s (clk m)) as [Hge|Hlt].
    + exists O, i, m. cbn. repeat split; lia.
    + assert (Hd : din (clk m) = false) by (apply HL; lia).
      destruct (IH (S i) (tick 3 m)) as (n & i' & m' & R & C & O).
      * cbn. lia.
      * cbn. lia.
      * lia.
      * eapply low_weaken; [exact HL|cbn; lia|lia].
      * exists (S n), i', m'. cbn [run loop_step].
        rewrite (relay_entry_low din i m Hd).
        destruct (Nat.ltb_spec (S i) 256); [|lia].
        split; [exact R|]. split; [exact C|].
        eapply only_time_trans; [|exact O]. repeat split.
Qed.

Lemma relay_pulse_events (s : nat) (b : bool) (m : machine) :
  (clk m <= s)%nat -> (s <= clk m + 765)%nat ->
  low din (clk m) s -> pulse din s b ->
  exists n m' tau,
    run TWO_LEDS din n (at_relay_entry 0, m) = (at_relay_entry 0, m') /\
    (s <= tau <= s + 2)%nat /\ clk m' = (tau + 18)%nat /\
    trace m' = relay_events tau b ++ trace m /\
    regs m' = regs m /\ mem m' = mem m /\ dout m' = false /\
    low din (clk m') (s + T_bit).
Proof.
  intros H1 H2 HL HP.
  destruct (relay_wait_only_time s 255 0 m)
    as (n & i' & m1 & R & C & (G1 & M1 & D1 & T1)); [lia|lia|lia|exact HL|].
  assert (Hh : din (clk m1) = true).
  { apply (pulse_high din s b); [exact HP|lia|destruct b; cbn; lia]. }
  assert (Hb1 : din (clk m1 + 7) = b).
  { destruct b.
    - apply (pulse_high din s true); [exact HP|lia|cbn; lia].
    - apply (pulse_low din s false); [exact HP|cbn; lia|unfold T_bit; lia]. }
  assert (Hb2 : din (clk m1 + 7 + (if b then 2 else 3)) = b).
  { destruct b.
    - apply (pulse_high din s true); [exact HP|lia|cbn; lia].
    - apply (pulse_low din s false); [exact HP|cbn; lia|unfold T_bit; lia]. }
  exists (n + 2)%nat. rewrite run_add, R. cbn [run loop_step].
  rewrite (relay_entry_high din i' m1 Hh). cbn [loop_step].
  rewrite relay_bit_eq. cbn [clk regs mem trace]. rewrite Hb1, Hb2.
  eexists. exists (clk m1). split; [reflexivity|].
  cbn [clk trace regs mem dout]. unfold relay_events.
  pose proof (pulse_tail_low din s b HP) as HT.
  rewrite G1, M1, T1.
  split; [lia|]. split; [destruct b; lia|]. split.
  { destruct b; cbn [app]; norm_clk; reflexivity. }
  repeat split.
  eapply low_weaken; [exact HT|destruct b; cbn; lia|lia].
Qed.

End Forward.

(** The relay phase on a train of pulses, bit by bit. *)
Lemma relay_train
  (TWO_LEDS : bool) (din : nat -> bool) (bs : list bool) :
  forall (s : nat) (m : machine),
    (clk m <= s)%nat -> (s <= clk m + 765)%nat ->
    low din (clk m) s -> pulses din s bs ->
    exists n m',
      run TWO_LEDS din n (at_relay_entry 0, m) = (at_relay_entry 0, m') /\
      relay_trace s bs (trace m) (trace m') /\
      regs m' = regs m /\ mem m' = mem m /\
      dout m' = match bs with [] => dout m | _ :: _ => false end /\
      (clk m <= clk m' <= s + T_bit * length bs)%nat /\
      low din (clk m') (s + T_bit * length bs).
Proof.
  induction bs as [|b bs IH]; intros s m H1 H2 HL HP.
  - exists O, m. cbn [run length relay_trace].
    rewrite Nat.mul_0_r, Nat.add_0_r.
    repeat split; try assumption; lia.
  - destruct HP as [HP HPs].
    destruct (relay_pulse_events TWO_LEDS din s b m H1 H2 HL HP)
      as (n1 & m1 & tau & R1 & Ht & C1 & T1 & G1 & M1 & D1 & L1).
    destruct (IH (s + T_bit)%nat m1)
      as (n2 & m2 & R2 & T2 & G2 & M2 & D2 & C2 & L2).
    + unfold T_bit. lia.
    + unfold T_bit. lia.
    + exact L1.
    + exact HPs.
    + exists (n1 + n2)%nat, m2. rewrite run_add, R1, R2.
      split; [reflexivity|]. split.
      { cbn [relay_trace]. exists tau. split; [exact Ht|].
        rewrite <- T1. exact T2. }
      split; [congruence|]. split; [congruence|]. split.
      { rewrite D2. destruct bs; [exact D1|reflexivity]. }
      cbn [length]. unfold T_bit in *. split; [lia|].
      eapply low_weaken; [exact L2|lia|lia].
Qed.


(** The relay phase on a train of any number of nominal pulses, with
    less than 765 idle cycles before it: for each bit the pin goes high
    4 cycles after the check that saw the edge, that is 4 to 6 cycles
    after the edge, and low again 6 cycles later for a 0 and 11 cycles
    later for a 1; the registers and the data space are untouched and
    the pin is left low. *)
Theorem relay_reproduces_pulses
  (TWO_LEDS : bool) (din : nat -> bool) (bs : list bool) :
  forall (s : nat) (m : machine),
    (clk m <= s)%nat -> (s <= clk m + 765)%nat ->
    low din (clk m) s -> pulses din s bs ->
    exists n m',
      run TWO_LEDS din n (at_relay_entry 0, m) = (at_relay_entry 0, m') /\
      relay_trace s bs (trace m) (trace m') /\
      regs m' = regs m /\ mem m' = mem m /\
      dout m' = match bs with [] => dout m | _ :: _ => false end /\
      (clk m <= clk m' <= s + T_bit * length bs)%nat /\
      low din (clk m') (s + T_bit * length bs).
Proof. exact (relay_train TWO_LEDS din bs). Qed.

Lemma relay_reproduces_pulses_witness :
  exists n m',
    run false (wave 10 [true; false]) n (at_relay_entry 0, blank 4)
    = (at_relay_entry 0, m') /\
    relay_trace 10 [true; false] [] (trace m').
Proof.
  destruct (relay_reproduces_pulses false (wave 10 [true; false])
              [true; false] 10 (blank 4))
    as (n & m' & R & T & _).
  - cbn; lia.
  - cbn; lia.
  - apply lowb_low. reflexivity.
  - apply pulsesb_pulses. reflexivity.
  - exists n, m'. split; assumption.
Defined.

(** ** The compare registers between commits *)

(** The six compare registers, in the order of the commit events. *)
Definition ocr_values (m : machine) : Z * Z * Z * Z * Z * Z :=
  (mem m OCR1A, mem m OCR1B, mem m OCR2A,
   mem m OCR2B, mem m OCR0B, mem m OCR0A).

(** What the compare registers must hold given the commits so far. *)
Definition last_commit (tr : list event) : Z * Z * Z * Z * Z * Z :=
  match commit_log tr with
  | [] => (255, 255, 255, 255, 255, 255)
  | e :: _ => snd e
  end.

Lemma last_commit_step (TWO_LEDS : bool) (din : nat -> bool) (s : state) :
  ocr_values (snd s) = last_commit (trace (snd s)) ->
  ocr_values (snd (loop_step TWO_LEDS din s)) =
  last_commit (trace (snd (loop_step TWO_LEDS din s))).
Proof.
  destruct s as [pc m].
  assert (Hcases : pc = at_update_now \/ pc <> at_update_now)
    by (destruct pc; auto; right; discriminate).
  destruct Hcases as [->|Hn]; intro H.
  - cbn [loop_step]. unfold last_commit, ocr_values.
    pose proof (update_now_mem TWO_LEDS m) as Hm. cbv zeta in Hm.
    destruct Hm as (M1 & M2 & M3 & M4 & M5 & M6).
    rewrite M1, M2, M3, M4, M5, M6, update_now_trace, !update_now_regs.
    reflexivity.
  - unfold last_commit, ocr_values in *.
    destruct (commit_log_step TWO_LEDS din (pc, m) Hn) as [-> _].
    rewrite (mem_step TWO_LEDS din (pc, m) Hn). exact H.
Qed.

(** In every run from power-on the six compare registers hold 255, off,
    until the first commit, and from then on exactly the six values of
    the latest commit: capture and relay never touch them. *)
Theorem outputs_hold_last_commit
  (TWO_LEDS : bool) (din : nat -> bool) (power_on : reg -> Z) (n : nat) :
  let m := snd (run TWO_LEDS din n (boot power_on)) in
  ocr_values m = last_commit (trace m).
Proof.
  cbv zeta. induction n as [|n IH]; [reflexivity|].
  rewrite run_S_r. apply last_commit_step, IH.
Qed.

(** ** A line stuck high *)

Section Stuck.

Variable TWO_LEDS : bool.
Variable din : nat -> bool.

Lemma relay_stuck_high (T : nat) (j : nat) :
  forall m : machine,
    (forall t, (clk m <= t < T)%nat -> din t = true) ->
    (clk m + 18 * j <= T)%nat ->
    exists m',
      run TWO_LEDS din (2 * j) (at_relay_entry 0, m) = (at_relay_entry 0, m')
      /\ clk m' = (clk m + 18 * j)%nat
      /\ regs m' = regs m /\ mem m' = mem m
      /\ commits (trace m') = commits (trace m)
      /\ commit_log (trace m') = commit_log (trace m)
      /\ length (out_times true (trace m')) =
         (j + length (out_times true (trace m)))%nat
      /\ length (out_times false (trace m')) =
         (j + length (out_times false (trace m)))%nat.
Proof.
  induction j as [|j IH]; intros m HH Hj.
  - exists m. cbn [run Nat.mul]. repeat split; lia.
  - assert (H0 : din (clk m) = true) by (apply HH; lia).
    assert (H7 : din (clk m + 7) = true) by (apply HH; lia).
    assert (H9 : din (clk m + 7 + 2) = true) by (apply HH; lia).
    replace (2 * S j)%nat with (S (S (2 * j))) by lia.
    cbn [run loop_step]. rewrite (relay_entry_high din 0 m H0).
    cbn [loop_step]. rewrite relay_bit_eq. cbn [clk regs mem trace].
    rewrite H7, H9. cbn [app].
    match goal with
    | |- context [run _ _ _ (at_relay_entry 0, ?M)] =>
        destruct (IH M) as (m' & R & C & G & Me & Co & Cl & Ot & Of)
    end.
    + cbn [clk]. intros t Ht. apply HH. lia.
    + cbn [clk]. lia.
    + exists m'. cbn [clk regs mem trace commits commit_log out_times
                      Bool.eqb length] in *.
      repeat split; try assumption; lia.
Qed.

Lemma READ_BIT_2_stuck_high (k : nat) (T : nat) (n : nat) :
  forall m : machine,
    (forall t, (clk m <= t < T)%nat -> din t = true) ->
    (clk m + 3 * n <= T + 2)%nat ->
    exists m',
      run TWO_LEDS din n (at_READ_BIT_2 k, m) = (at_READ_BIT_2 k, m')
      /\ clk m' = (clk m + 3 * n)%nat /\ only_time m m'.
Proof.
  induction n as [|n IH]; intros m HH Hn.
  - exists m. cbn [run]. repeat split; lia.
  - destruct (READ_BIT_2_poll TWO_LEDS din k m) as (m1 & R & C & O).
    { apply HH. lia. }
    destruct (IH m1) as (m' & R' & C' & O').
    + intros t Ht. apply HH. lia.
    + lia.
    + exists m'. cbn [run]. rewrite R. split; [exact R'|].
      split; [lia|]. eapply only_time_trans; eassumption.
Qed.

End Stuck.

(** A line stuck high in the relay phase is forwarded as an endless
    train of 1 bits: as long as the line is high the forwarder is back
    at the first check of relay_entry every 18 cycles, having raised
    and dropped the output once each time, and it never commits nor
    touches a register or a compare register. *)
Theorem relay_line_stuck_high
  (TWO_LEDS : bool) (din : nat -> bool) (m : machine) (T j : nat) :
  (forall t, (clk m <= t < T)%nat -> din t = true) ->
  (clk m + 18 * j <= T)%nat ->
  exists m',
    run TWO_LEDS din (2 * j) (at_relay_entry 0, m) = (at_relay_entry 0, m') /\
    clk m' = (clk m + 18 * j)%nat /\
    regs m' = regs m /\ mem m' = mem m /\
    commits (trace m') = commits (trace m) /\
    length (out_times true (trace m')) =
      (j + length (out_times true (trace m)))%nat /\
    length (out_times false (trace m')) =
      (j + length (out_times false (trace m)))%nat.
Proof.
  intros HH Hj.
  destruct (relay_stuck_high TWO_LEDS din T j m HH Hj)
    as (m' & R & C & G & Me & Co & _ & Ot & Of).
  exists m'. repeat split; assumption.
Qed.

Lemma relay_line_stuck_high_witness :
  exists m',
    run true (fun _ => true) 10 (at_relay_entry 0, blank 0)
    = (at_relay_entry 0, m') /\ clk m' = 90%nat /\
    length (out_times true (trace m')) = 5%nat.
Proof.
  destruct (relay_line_stuck_high true (fun _ => true) (blank 0) 90 5)
    as (m' & R & C & _ & _ & _ & Ot & _).
  - reflexivity.
  - cbn. lia.
  - exists m'. repeat split; assumption.
Defined.

(** A line that never falls blocks capture: after the sample, READ_BIT
    polls at its label 2 every 3 cycles for as long as the line is high,
    changing nothing but the clock; there is no time-out. *)
Theorem capture_line_stuck_high
  (TWO_LEDS : bool) (din : nat -> bool) (k : nat) (m : machine) (T n : nat) :
  (forall t, (clk m <= t < T)%nat -> din t = true) ->
  (clk m + 3 * n <= T + 2)%nat ->
  exists m',
    run TWO_LEDS din n (at_READ_BIT_2 k, m) = (at_READ_BIT_2 k, m') /\
    clk m' = (clk m + 3 * n)%nat /\ only_time m m'.
Proof. apply READ_BIT_2_stuck_high. Qed.

Lemma capture_line_stuck_high_witness :
  exists m',
    run true (fun _ => true) 100 (at_READ_BIT_2 3, blank 0)
    = (at_READ_BIT_2 3, m') /\ clk m' = 300%nat.
Proof.
  destruct (capture_line_stuck_high true (fun _ => true) 3 (blank 0) 300 100)
    as (m' & R & C & _).
  - reflexivity.
  - cbn. lia.
  - exists m'. split; assumption.
Defined.

(** ** Frame after frame *)

(** The line carries the frames [F], each given by its start cycle and
    its bits, the first one not before cycle [t]: it is low between the
    frames, and after each frame for at least 792 cycles. *)
Fixpoint carries (N : nat) (din : nat -> bool) (t : nat)
                 (F : list (nat * list bool)) : Prop :=
  match F with
  | [] => True
  | (s, bits) :: F' =>
      (t <= s)%nat /\ low din t s /\
      (N <= length bits)%nat /\ pulses din s bits /\
      low din (s + T_bit * length bits) (s + T_bit * length bits + 792) /\
      carries N din (s + T_bit * length bits + 792) F'
  end.

Lemma log_of_samples {A B : Type} (g : A -> B) (l : list (A * B)) :
  Forall (fun e => snd e = g (fst e)) l ->
  l = map (fun x => (x, g x)) (map fst l).
Proof.
  induction 1 as [|[a b] l H _ IH]; [reflexivity|].
  cbn [map fst]. cbn [fst snd] in H. rewrite <- IH, H. reflexivity.
Qed.

Section Frame_after_frame.

Variable TWO_LEDS : bool.
Variable din : nat -> bool.

Lemma frames_run (F : list (nat * list bool)) :
  forall (m : machine) (t : nat),
    frame_samples (trace m) = [] ->
    (clk m <= t)%nat -> low din (clk m) t ->
    carries (length (capture_start TWO_LEDS)) din t F ->
    exists n m',
      run TWO_LEDS din n (at_READ_BIT_1 0, m) = (at_READ_BIT_1 0, m') /\
      frame_samples (trace m') = [] /\
      map fst (commit_log (trace m')) =
        rev (map (fun f => combine (capture_start TWO_LEDS)
                                   (firstn (length (capture_start TWO_LEDS))
                                           (snd f))) F)
        ++ map fst (commit_log (trace m)).
Proof.
  induction F as [|[s bits] F IH]; intros m t Hfs Hc HL HF.
  - exists O, m. cbn [run map rev app]. auto.
  - cbn [carries] in HF. destruct HF as (Hts & HLs & HN & HP & Hidle & HF).
    set (N := length (capture_start TWO_LEDS)) in *.
    assert (Hlen : length (firstn N bits) = N)
      by (apply firstn_length_le; exact HN).
    assert (Hall : (length (firstn N bits) + length (skipn N bits))%nat
                   = length bits).
    { rewrite <- length_app, firstn_skipn. reflexivity. }
    destruct (frame_cycle TWO_LEDS din m s (firstn N bits) (skipn N bits))
      as (n1 & m3 & _ & R & C & F3 & _ & L3 & _ & _).
    + exact Hfs.
    + lia.
    + eapply low_join; eassumption.
    + exact Hlen.
    + rewrite firstn_skipn. exact HP.
    + rewrite Hall. eapply low_weaken; [exact Hidle|lia|lia].
    + rewrite Hall in C.
      destruct (IH (snd (update_now TWO_LEDS m3))
                   (s + T_bit * length bits + 792)%nat)
        as (n2 & m' & R' & F' & L').
      * rewrite update_now_trace. reflexivity.
      * rewrite update_now_clk. destruct TWO_LEDS; lia.
      * eapply low_weaken; [exact Hidle| |lia].
        rewrite update_now_clk. lia.
      * exact HF.
      * exists (S n1 + n2)%nat, m'. rewrite run_add, R.
        split; [exact R'|]. split; [exact F'|].
        rewrite L', update_now_trace. cbn [commit_log map fst rev snd].
        rewrite F3, L3, <- app_assoc. reflexivity.
Qed.

End Frame_after_frame.

(** Steady operation.  After power-on on an idle line, any sequence of
    well-formed frames, each followed by at least 792 idle cycles,
    yields exactly one commit per frame, in the order of the frames;
    the commit for a frame stores [duty] of the first 24 (one LED) or
    48 (two LEDs) bits of that frame, whatever the frames before it
    were and however many bits each one relayed. *)
Theorem frames_commit_in_order
  (TWO_LEDS : bool) (din : nat -> bool) (power_on : reg -> Z)
  (F : list (nat * list bool)) :
  let N := length (capture_start TWO_LEDS) in
  let t0 := if TWO_LEDS then 0%nat else 3%nat in
  low din t0 (t0 + 1500) ->
  carries N din (t0 + 1500) F ->
  exists n m',
    run TWO_LEDS din n (boot power_on) = (at_READ_BIT_1 0, m') /\
    commit_log (trace m') =
      rev (map (fun f =>
                  let fs := combine (capture_start TWO_LEDS)
                                    (firstn N (snd f)) in
                  (fs, duty TWO_LEDS fs)) F).
Proof.
  cbv zeta. intros Hsync HF.
  destruct (sync_idle TWO_LEDS din power_on Hsync)
    as (m0 & R0 & C0 & T0 & _).
  destruct (frames_run TWO_LEDS din F m0
              ((if TWO_LEDS then 0 else 3) + 1500)%nat)
    as (n & m' & R & _ & L).
  - rewrite T0. reflexivity.
  - lia.
  - rewrite C0. intros t Ht. lia.
  - exact HF.
  - exists (252 + n)%nat, m'. rewrite run_add, R0. split; [exact R|].
    pose proof (sound_run TWO_LEDS din (252 + n) _
                  (sound_boot TWO_LEDS power_on)) as (_ & Hlog & _).
    rewrite run_add, R0, R in Hlog. cbn [snd] in Hlog.
    rewrite (log_of_samples (duty TWO_LEDS) (commit_log (trace m'))).
    + rewrite L, T0. cbn [commit_log map]. rewrite app_nil_r.
      rewrite map_rev, map_map. reflexivity.
    + eapply Forall_impl; [|exact Hlog]. intros e [_ He]. exact He.
Qed.

Lemma frames_commit_in_order_witness :
  exists n m',
    run false line_C n (boot (fun _ => 0)) = (at_READ_BIT_1 0, m') /\
    map snd (commit_log (trace m')) =
      [(0, 255, 127, 255, 255, 255); (0, 255, 127, 255, 255, 255)].
Proof.
  destruct (frames_commit_in_order false line_C (fun _ => 0)
              [(1600%nat, frame_A); (3600%nat, frame_A)])
    as (n & m' & R & L).
  - apply lowb_low. vm_compute. reflexivity.
  - cbn [carries length capture_start READ_BYTE app frame_A bits_of_byte map
         T_bit Nat.add Nat.mul].
    repeat match goal with |- _ /\ _ => split end;
      try lia; try exact I;
      try (apply lowb_low; vm_compute; reflexivity);
      try (apply pulsesb_pulses; vm_compute; reflexivity).
  - exists n, m'. split; [exact R|]. rewrite L. vm_compute. reflexivity.
Defined.

(** ** setup(): the pin directions *)

(** Bit numbers of avr/io.h. *)
Definition PB1 : Z := 1.
Definition PB2 : Z := 2.
Definition PB3 : Z := 3.
Definition DDD3 : Z := 3.
Definition DDD5 : Z := 5.
Definition DDD6 : Z := 6.

(** DATA_IN and DATA_OUT, by ALTERNATE_DATA_PINS. *)
Definition DATA_IN (ALTERNATE_DATA_PINS : bool) : Z :=
  if ALTERNATE_DATA_PINS then 6 else 7.

Definition DATA_OUT (ALTERNATE_DATA_PINS : bool) : Z :=
  if ALTERNATE_DATA_PINS then 7 else 2.

(** DDRB |= (1 << PB1) | (1 << PB2) | (1 << PB3). *)
Definition setup_DDRB (ddrb : Z) : Z :=
  Z.lor ddrb (Z.lor (Z.lor (Z.shiftl 1 PB1) (Z.shiftl 1 PB2)) (Z.shiftl 1 PB3)).

(** DDRD |= (1 << DDD3) | (1 << DDD5) | (1 << DDD6);
    DDRD &= ~(1 << DATA_IN); DDRD |= (1 << DATA_OUT). *)
Definition setup_DDRD (ALTERNATE_DATA_PINS : bool) (ddrd : Z) : Z :=
  let d1 := Z.lor ddrd (Z.lor (Z.lor (Z.shiftl 1 DDD3) (Z.shiftl 1 DDD5))
                              (Z.shiftl 1 DDD6)) in
  let d2 := Z.land d1 (Z.lnot (Z.shiftl 1 (DATA_IN ALTERNATE_DATA_PINS))) in
  Z.lor d2 (Z.shiftl 1 (DATA_OUT ALTERNATE_DATA_PINS)).

Lemma testbit_one_hot (k i : Z) :
  0 <= k -> Z.testbit (Z.shiftl 1 k) i = Z.eqb k i.
Proof.
  intro Hk. rewrite Z.shiftl_1_l. apply Z.pow2_bits_eqb. exact Hk.
Qed.

(** Whatever the direction registers held, after setup: in DDRD the bit
    of DATA_OUT is set (output) and the bit of DATA_IN is clear (input);
    bits 3, 5 and 6, the second LED, are set, except that with the
    alternate pins bit 6 is DATA_IN and ends up clear, which is why that
    build captures one pixel only; every other bit is as it was.  In
    DDRB bits 1, 2 and 3, the first LED, are set and the others are as
    they were. *)
Theorem setup_pin_directions
  (ALTERNATE_DATA_PINS : bool) (ddrb ddrd : Z) (i : Z) :
  0 <= i ->
  Z.testbit (setup_DDRD ALTERNATE_DATA_PINS ddrd) i =
    (if Z.eqb i (DATA_OUT ALTERNATE_DATA_PINS) then true
     else if Z.eqb i (DATA_IN ALTERNATE_DATA_PINS) then false
     else if (Z.eqb i 3 || Z.eqb i 5 || Z.eqb i 6)%bool then true
     else Z.testbit ddrd i) /\
  Z.testbit (setup_DDRB ddrb) i =
    (if (Z.eqb i 1 || Z.eqb i 2 || Z.eqb i 3)%bool then true
     else Z.testbit ddrb i).
Proof.
  intro Hi. unfold setup_DDRD, setup_DDRB, DATA_IN, DATA_OUT,
    PB1, PB2, PB3, DDD3, DDD5, DDD6.
  cbv zeta. split.
  - rewrite !Z.lor_spec, Z.land_spec, Z.lnot_spec, !Z.lor_spec by exact Hi.
    rewrite !testbit_one_hot by (destruct ALTERNATE_DATA_PINS; lia).
    destruct ALTERNATE_DATA_PINS;
      repeat match goal with
             | |- context [Z.eqb ?a ?b] => destruct (Z.eqb_spec a b)
             end; cbn; try reflexivity; try lia;
      destruct (Z.testbit ddrd i); reflexivity.
  - rewrite !Z.lor_spec. rewrite !testbit_one_hot by lia.
    repeat match goal with
           | |- context [Z.eqb ?a ?b] => destruct (Z.eqb_spec a b)
           end; cbn; try reflexivity; try lia;
      destruct (Z.testbit ddrb i); reflexivity.
Qed.

Lemma setup_pin_directions_witness :
  Z.testbit (setup_DDRD true 0) 6 = false /\
  Z.testbit (setup_DDRB 0) 2 = true.
Proof.
  destruct (setup_pin_directions true 0 0 6 ltac:(lia)) as [H1 _].
  destruct (setup_pin_directions true 0 0 2 ltac:(lia)) as [_ H2].
  split; [exact H1|exact H2].
Defined.

(** ** What is forwarded downstream *)





(** ** Edge cases of the timing *)

(** One relayed bit on any line, from the check of relay_entry that sees
    the line high at cycle [clk m]: relay_entry polls again 18 cycles
    later when the two samples of relay_bit (7 cycles after the check,
    and 2 or 3 cycles after that) agree, 17 cycles later when the line
    falls between them and 19 when it rises between them; never
    otherwise. *)
Theorem relay_bit_duration
  (TWO_LEDS : bool) (din : nat -> bool) (i : nat) (m : machine) :
  din (clk m) = true ->
  let b1 := din (clk m + 7)%nat in
  let b2 := din (clk m + 7 + (if b1 then 2 else 3))%nat in
  let s2 := run TWO_LEDS din 2 (at_relay_entry i, m) in
  fst s2 = at_relay_entry 0 /\
  clk (snd s2) =
    (clk m + (match b1, b2 with
              | true, false => 17
              | false, true => 19
              | _, _ => 18
              end))%nat.
Proof.
  intro Hh. cbv zeta. cbn [run loop_step].
  rewrite (relay_entry_high din i m Hh). cbn [loop_step].
  rewrite relay_bit_eq. cbn [fst snd clk].
  split; [reflexivity|].
  destruct (din (clk m + 7)%nat);
    destruct (din (clk m + 7 + _)%nat); lia.
Qed.

Lemma relay_bit_duration_witness :
  clk (snd (run false (wave 0 [false; true]) 2 (at_relay_entry 0, blank 1)))
  = 19%nat.
Proof.
  pose proof (relay_bit_duration false (wave 0 [false; true]) 0 (blank 1)
                eq_refl) as H.
  cbv zeta in H. exact (proj2 H).
Defined.

Section SyncStuck.

Variable TWO_LEDS : bool.
Variable din : nat -> bool.

Lemma sync_stuck_high (T n : nat) :
  forall m : machine,
    (forall t, (clk m <= t < T)%nat -> din t = true) ->
    (clk m + 5 * n <= T)%nat ->
    exists m',
      run TWO_LEDS din (2 * n) (at_wait_reset, m) = (at_wait_reset, m') /\
      clk m' = (clk m + 5 * n)%nat /\
      (forall r, r <> r22 -> regs m' r = regs m r) /\
      mem m' = mem m /\ dout m' = dout m /\ trace m' = trace m.
Proof.
  induction n as [|n IH]; intros m HH Hn.
  - exists m. cbn [run Nat.mul]. repeat split; lia.
  - replace (2 * S n)%nat with (S (S (2 * n))) by lia.
    cbn [run]. rewrite wait_reset_eq. cbn [loop_step]. unfold r_chk.
    assert (H1 : din (clk (tick 1 (set_reg r22 250 m))) = true)
      by (apply HH; cbn; lia).
    rewrite H1.
    destruct (IH (jmp (tick 1 (tick 1 (set_reg r22 250 m)))))
      as (m' & R & C & G & Me & D & Tr).
    + intros t Ht. apply HH. cbn in Ht. lia.
    + cbn. lia.
    + exists m'. split; [exact R|]. cbn in C. split; [lia|].
      split.
      { intros r Hr. rewrite (G r Hr). cbn. destruct r; try reflexivity.
        contradiction. }
      repeat split; assumption.
Qed.

End SyncStuck.

(** A line stuck high at power-on keeps the loop in the synchronisation:
    every check of r_chk sees it high and jumps back to wait_reset, 5
    cycles per round, and capture never starts; only r22 is written. *)
Theorem sync_line_stuck_high
  (TWO_LEDS : bool) (din : nat -> bool) (m : machine) (T n : nat) :
  (forall t, (clk m <= t < T)%nat -> din t = true) ->
  (clk m + 5 * n <= T)%nat ->
  exists m',
    run TWO_LEDS din (2 * n) (at_wait_reset, m) = (at_wait_reset, m') /\
    clk m' = (clk m + 5 * n)%nat /\
    (forall r, r <> r22 -> regs m' r = regs m r) /\
    mem m' = mem m /\ dout m' = dout m /\ trace m' = trace m.
Proof. apply sync_stuck_high. Qed.

Lemma sync_line_stuck_high_witness :
  exists m',
    run true (fun _ => true) 20 (at_wait_reset, blank 0) = (at_wait_reset, m')
    /\ clk m' = 50%nat.
Proof.
  destruct (sync_line_stuck_high true (fun _ => true) (blank 0) 50 10)
    as (m' & R & C & _).
  - reflexivity.
  - cbn. lia.
  - exists m'. split; assumption.
Defined.
